(** * v3-config-ui: the crawler configuration mock server (app-test.js)

    A shallow embedding of the single request handler of [app-test.js]
    (POST /api/v2/crawler) and of the helpers it calls, followed by the
    properties of the identifier allocator, the configuration resolver,
    the configuration merger and the organization registrar.

    Modelling conventions.
    - The two flat files are kept as the documents [readJson] returns for
      them: a missing, empty or unparseable file reads as the empty
      object, and an organization file that is not an array is used as
      the empty array by every handler.
    - A JavaScript value that comes out of a JSON document is a [json];
      [undefined] is the [None] of [option json].  Numbers are the
      integer-valued ones, held exactly in [Z]: the identifiers of the
      data model are integers, and on the allocator band (below 2^53)
      double arithmetic is exact.
    - Objects are association lists read by first match; the order in
      which JavaScript enumerates their keys (array indices ascending,
      then the other keys in creation order) is computed by
      [own_entries].  The configuration map is read and written under a
      key that the request chooses: [get] reads through to the members of
      [Object.prototype] and [put] follows the setter of [__proto__], as
      [configs[orgId]] does on a plain object.
    - [JSON.parse], the string-to-number conversion and the printing of
      the integers beyond 2^53 are parameters of the development. *)

From Stdlib Require Import ZArith List Ascii String Bool Lia Permutation Sorted.
From Stdlib Require Import DecimalString.
Import ListNotations.
Local Open Scope string_scope.
Local Open Scope list_scope.
Local Open Scope Z_scope.

(** ** Values *)

#[local] Set Warnings "-register-all".

Inductive json : Type :=
| JNull : json
| JBool (b : bool) : json
| JNum (z : Z) : json
| JStr (s : string) : json
| JArr (l : list json) : json
| JObj (l : list (string * json)) : json.

Definition obj : Type := list (string * json).

(** The result of [Number(v)]: a finite (integer) value, [NaN] or an
    infinity. *)
Inductive number : Type :=
| Fin (z : Z)
| NaN
| PosInf
| NegInf.

(** [!!v] for a value that may be [undefined]. *)
Definition truthy (v : option json) : bool :=
  match v with
  | None => false
  | Some JNull => false
  | Some (JBool b) => b
  | Some (JNum z) => negb (z =? 0)
  | Some (JStr s) => negb (s =? "")%string
  | Some (JArr _) => true
  | Some (JObj _) => true
  end.

(** [!s] is false exactly for a present, non-empty form field. *)
Definition present (f : option string) : bool :=
  match f with
  | Some s => negb (s =? "")%string
  | None => false
  end.

Definition string_of_Z (z : Z) : string := NilZero.string_of_int (Z.to_int z).

Definition string_of_nat (n : nat) : string :=
  NilZero.string_of_uint (Nat.to_uint n).

Section Runtime.

(** [JSON.parse], [None] when it throws; the conversion of a string to a
    number; and the string of an integer beyond 2^53 in magnitude, where
    the runtime prints the shortest digits that identify the double, in
    exponent notation from 10^21 on. *)
Variable JSON_parse : string -> option json.
Variable StringToNumber : string -> number.
Variable largeNumberString : Z -> string.

(** [String(n)] for an integer: its decimal numeral up to 2^53. *)
Definition NumberToString (z : Z) : string :=
  if Z.abs z <=? 9007199254740992 then string_of_Z z else largeNumberString z.

(** [String(v)]: the elements of an array are joined with commas, [null]
    elements printing as the empty string; an object is one without an
    own [toString] property. *)
Fixpoint ToString_json (v : json) : string :=
  match v with
  | JNull => "null"
  | JBool true => "true"
  | JBool false => "false"
  | JNum z => NumberToString z
  | JStr s => s
  | JArr l =>
      (fix join (l : list json) : string :=
         match l with
         | [] => ""
         | [x] => match x with JNull => "" | _ => ToString_json x end
         | x :: r =>
             ((match x with JNull => "" | _ => ToString_json x end)
                ++ "," ++ join r)%string
         end) l
  | JObj _ => "[object Object]"
  end.

Definition ToString (v : option json) : string :=
  match v with
  | None => "undefined"
  | Some j => ToString_json j
  end.

(** ** Objects

    [lookup o k] is the own property [k] of [o], [set k v o] is the
    assignment [o[k] = v]: an existing property keeps its place, a new one
    is created last. *)

Fixpoint lookup (o : obj) (k : string) : option json :=
  match o with
  | [] => None
  | (k', v) :: r => if (k' =? k)%string then Some v else lookup r k
  end.

Fixpoint set (k : string) (v : json) (o : obj) : obj :=
  match o with
  | [] => [(k, v)]
  | (k', v') :: r =>
      if (k' =? k)%string then (k', v) :: r else (k', v') :: set k v r
  end.

(** An array index is a canonical decimal numeral below 2^32 - 1; such
    keys are enumerated first, in ascending order. *)
Definition array_index (k : string) : option N :=
  match NilEmpty.uint_of_string k with
  | Some u =>
      let n := N.of_uint u in
      if ((NilZero.string_of_uint (N.to_uint n) =? k)%string
          && (n <? 4294967295)%N)%bool
      then Some n else None
  | None => None
  end.

Definition is_index (p : string * json) : bool :=
  match array_index (fst p) with Some _ => true | None => false end.

Definition index_of (p : string * json) : N :=
  match array_index (fst p) with Some n => n | None => 0%N end.

(** The live bindings of an association list: the first one of each key. *)
Fixpoint dedup (o : obj) : obj :=
  match o with
  | [] => []
  | (k, v) :: r =>
      (k, v) :: filter (fun p => negb (fst p =? k)%string) (dedup r)
  end.

Fixpoint insert_index (p : string * json) (l : obj) : obj :=
  match l with
  | [] => [p]
  | q :: r =>
      if (index_of p <=? index_of q)%N then p :: q :: r
      else q :: insert_index p r
  end.

Definition sort_index (l : obj) : obj := fold_right insert_index [] l.

(** The own enumerable properties of an object, in enumeration order. *)
Definition own_entries (o : obj) : obj :=
  sort_index (filter is_index (dedup o))
    ++ filter (fun p => negb (is_index p)) (dedup o).

Fixpoint indexed (i : nat) (l : list json) : obj :=
  match l with
  | [] => []
  | x :: r => (string_of_nat i, x) :: indexed (S i) r
  end.

Fixpoint chars (i : nat) (s : string) : obj :=
  match s with
  | EmptyString => []
  | String c r => (string_of_nat i, JStr (String c EmptyString)) :: chars (S i) r
  end.

(** What a spread [...v] copies: the own enumerable properties of an
    object, the elements of an array and the characters of a string under
    their indices (one character per byte of the model's strings),
    nothing for the other values. *)
Definition entries (v : option json) : obj :=
  match v with
  | Some (JObj o) => own_entries o
  | Some (JArr l) => indexed 0 l
  | Some (JStr s) => chars 0 s
  | _ => []
  end.

(** [{ ...a, ...b }] *)
Definition assign (o : obj) (es : obj) : obj :=
  fold_left (fun acc p => set (fst p) (snd p) acc) es o.

Definition spread2 (a b : option json) : obj :=
  assign (assign [] (entries a)) (entries b).

(** The object without its property [k]. *)
Definition delete (k : string) (o : obj) : obj :=
  filter (fun p => negb (fst p =? k)%string) o.

(** [Object.values(o)] *)
Definition Object_values (o : obj) : list json := map snd (own_entries o).

(** [v.k] for a value [v] read from a JSON document and a key [k] that
    is no member of arrays, strings, numbers or booleans (the handler
    reads [isDefault]): only an object can have the property. *)
Definition property (v : json) (k : string) : option json :=
  match v with
  | JObj o => lookup o k
  | _ => None
  end.

(** *** A plain object under a key chosen by the caller

    The names of the members of [Object.prototype], which every object
    of a JSON document inherits: functions, and the accessor [__proto__]
    whose getter yields [Object.prototype] itself. *)
Definition prototypeMembers : list string :=
  [ "constructor"; "__defineGetter__"; "__defineSetter__"; "hasOwnProperty";
    "__lookupGetter__"; "__lookupSetter__"; "isPrototypeOf";
    "propertyIsEnumerable"; "toString"; "valueOf"; "__proto__";
    "toLocaleString" ].

Definition inherited (k : string) : bool :=
  existsb (fun name => (name =? k)%string) prototypeMembers.

(** What [o[k]] yields: a value of the document, or the member of
    [Object.prototype] of that name. *)
Inductive value : Type :=
| Json (j : json)
| Member (name : string).

(** [o[k]]: the own property, else the inherited member, else
    [undefined]. *)
Definition get (o : obj) (k : string) : option value :=
  match lookup o k with
  | Some j => Some (Json j)
  | None => if inherited k then Some (Member k) else None
  end.

(** [!!v]: every member of [Object.prototype] is truthy. *)
Definition truthyValue (v : option value) : bool :=
  match v with
  | Some (Json j) => truthy (Some j)
  | Some (Member _) => true
  | None => false
  end.

(** What a spread copies from [v]: a member of [Object.prototype] has no
    own enumerable property. *)
Definition spreadable (v : option value) : option json :=
  match v with
  | Some (Json j) => Some j
  | _ => None
  end.

(** [o[k] = v] as the file then holds it: an own property is written,
    except under [__proto__] when the object has no own property of that
    name, where the inherited setter replaces the prototype and the own
    properties stay as they were. *)
Definition put (k : string) (v : json) (o : obj) : obj :=
  match lookup o k with
  | Some _ => set k v o
  | None => if (k =? "__proto__")%string then o else set k v o
  end.

(** ** Organizations, the two files and the handler monad *)

(** An element of org-list.json, as the handlers read it: its two
    properties, [None] when the property is missing. *)
Record org : Type := { ORG_ID : option json; ORG_NAME : option json }.

Definition org_json (o : org) : json :=
  JObj ((match ORG_ID o with Some v => [("ORG_ID", v)] | None => [] end)
          ++ (match ORG_NAME o with Some v => [("ORG_NAME", v)] | None => [] end)).

(** The documents [readJson] returns for CONFIG_FILE and ORG_FILE. *)
Record store : Type := { CONFIG_FILE : obj; ORG_FILE : list org }.

(** What the handler sends: [res.json] with a [details] payload,
    [res.status(...).json] with a message, or [res.json] whose [details]
    does not reach the wire. *)
Inductive response : Type :=
| success (details : json) (message : string)
| failure (status : Z) (message : string)
| success_without_details (message : string).

(** [res.json({ code: 'SUCCESS', details: config, message, ... })] as it
    is sent: [Object.prototype] is serialized as the empty object, and a
    property whose value is a function is left out. *)
Definition res_json (config : value) (message : string) : response :=
  match config with
  | Json details => success details message
  | Member name =>
      if (name =? "__proto__")%string then success (JObj []) message
      else success_without_details message
  end.

(** [req.body] as multer leaves it: text fields, and a [config] field that
    is a string or an already structured value. *)
Record body : Type := {
  action : option string;
  orgName : option string;
  orgId : option string;
  config : option json
}.

Definition handler (A : Type) : Type := store -> A * store.

Definition ret {A : Type} (a : A) : handler A := fun st => (a, st).

Definition bind {A B : Type} (m : handler A) (k : A -> handler B) : handler B :=
  fun st => let (a, st') := m st in k a st'.

Notation "x <- m ;; k" := (bind m (fun x => k))
  (at level 61, m at next level, right associativity).
Notation "m ;;; k" := (bind m (fun _ => k))
  (at level 61, right associativity).

Definition readConfigs : handler obj := fun st => (CONFIG_FILE st, st).

Definition readOrgs : handler (list org) := fun st => (ORG_FILE st, st).

Definition writeConfigs (data : obj) : handler unit :=
  fun st => (tt, {| CONFIG_FILE := data; ORG_FILE := ORG_FILE st |}).

Definition writeOrgs (data : list org) : handler unit :=
  fun st => (tt, {| CONFIG_FILE := CONFIG_FILE st; ORG_FILE := data |}).

Definition MIN_ORG_ID : Z := 1000000000000.

Definition MAX_ORG_ID : Z := 1999999999999.

Definition strings (l : list string) : json := JArr (map JStr l).

Definition DEFAULT_CONFIG : obj :=
  [ ("isDefault", JBool true);
    ("enabledFeatures", strings ["2"; "5"; "6"; "9"; "10"; "11"]);
    ("includeCrawledURLCountInResponse", JBool false);
    ("throttleTimeInterval", JStr "1D");
    ("whiteListedDomains",
      strings ["help.zoho.com"; "docs.catalyst.zoho.com";
               "blogs.manageengine.com"; "www.manageengine.com";
               "blog.zoho.com"]);
    ("throttleRequestCount", JNum 50);
    ("maxDepthAllowed", JNum (-1));
    ("maxPagesToFetchAllowed", JNum 20000);
    ("maxAsyncResponseRate", JNum 100);
    ("requestPriority", JNum 5);
    ("isDynamicCrawlingAllowed", JBool true);
    ("enabledCrawlerFields", strings ["Html"; "OutGoingURLs"; "Markdown"]);
    ("additionalQueryParams",
      strings ["requestId"; "recordId"; "seedStatus"; "recordStatus"]) ].

(** A call either returns or throws an [Error] with a message. *)
Inductive result (A : Type) : Type :=
| Return (a : A)
| Throw (message : string).

#[global] Arguments Return {A} a.
#[global] Arguments Throw {A} message.

(** [o.ORG_NAME === orgName] for a string [orgName]. *)
Definition same_name (v : option json) (name : string) : bool :=
  match v with
  | Some (JStr s) => (s =? name)%string
  | _ => false
  end.

(** [c && c.isDefault === true] *)
Definition isDefault (c : json) : bool :=
  truthy (Some c) &&
  match property c "isDefault" with
  | Some (JBool true) => true
  | _ => false
  end.

(** The names of a list that are strings. *)
Definition orgNames (orgs : list org) : list string :=
  flat_map (fun o => match ORG_NAME o with
                     | Some (JStr s) => [s]
                     | _ => []
                     end) orgs.

(** The records of a list whose identifier prints as [orgId]. *)
Definition entriesFor (orgId : string) (orgs : list org) : list org :=
  filter (fun o => (ToString (ORG_ID o) =? orgId)%string) orgs.

(** ** An instance of the runtime

    The handlers are run in the examples with a conversion that reads the
    empty string and the decimal integer numerals (every other string is
    not a number), and with a decoder of the documents [null], [true],
    [false], [{}], [[]] and the decimal integers (every other text is
    rejected). *)

Definition decimalNumber (s : string) : number :=
  if (s =? "")%string then Fin 0
  else match NilZero.int_of_string s with
       | Some d => Fin (Z.of_int d)
       | None => NaN
       end.

(** Exponent notation with every digit of the integer, right for the
    integers from 10^21 on that have at most fifteen significant digits;
    the examples print no integer beyond 2^53. *)
Fixpoint dropZeros (rev_digits : string) : string :=
  match rev_digits with
  | String "0"%char r => dropZeros r
  | _ => rev_digits
  end.

Fixpoint reverse (s acc : string) : string :=
  match s with
  | EmptyString => acc
  | String c r => reverse r (String c acc)
  end.

Definition exponentForm (z : Z) : string :=
  let digits := string_of_Z (Z.abs z) in
  let sign := if z <? 0 then "-" else "" in
  if Z.abs z <? 1000000000000000000000 then string_of_Z z
  else
    match reverse (dropZeros (reverse digits "")) "" with
    | String d EmptyString =>
        sign ++ String d EmptyString
          ++ "e+" ++ string_of_nat (String.length digits - 1)
    | String d rest =>
        sign ++ String d EmptyString ++ "." ++ rest
          ++ "e+" ++ string_of_nat (String.length digits - 1)
    | EmptyString => digits
    end%string.

Definition parseAtom (s : string) : option json :=
  if (s =? "null")%string then Some JNull
  else if (s =? "true")%string then Some (JBool true)
  else if (s =? "false")%string then Some (JBool false)
  else if (s =? "{}")%string then Some (JObj [])
  else if (s =? "[]")%string then Some (JArr [])
  else match NilZero.int_of_string s with
       | Some d => Some (JNum (Z.of_int d))
       | None => None
       end.

(** The data of the end-to-end scenarios: the organization "Acme" with
    the first identifier of the band, the store that holds it and no
    configuration, a partial document, and a stored default. *)

Definition acme : org :=
  {| ORG_ID := Some (JNum 1000000000000); ORG_NAME := Some (JStr "Acme") |}.

Definition acmeOnly : store := {| CONFIG_FILE := []; ORG_FILE := [acme] |}.

Definition throttle75 : json := JObj [("throttleRequestCount", JNum 75)].

Definition depth3 : json := JObj [("maxDepthAllowed", JNum 3)].

Definition markedDefault : json :=
  JObj [("isDefault", JBool true); ("requestPriority", JNum 1)].

Definition request (a : string) (name id : option string) (c : option json) : body :=
  {| action := Some a; orgName := name; orgId := id; config := c |}.

(** [defaultInFile || DEFAULT_CONFIG], with [defaultInFile] the first
    value of the map that [isDefault] accepts. *)
Definition fallback (configs : obj) : json :=
  let allConfigs := Object_values configs in
  match find isDefault allConfigs with
  | Some defaultInFile => defaultInFile
  | None => JObj DEFAULT_CONFIG
  end.

(** [Number(v)]; an object is one without an own [toString] property. *)
Definition ToNumber (v : option json) : number :=
  match v with
  | None => NaN
  | Some JNull => Fin 0
  | Some (JBool b) => Fin (if b then 1 else 0)
  | Some (JNum z) => Fin z
  | Some (JStr s) => StringToNumber s
  | Some (JArr l) => StringToNumber (ToString_json (JArr l))
  | Some (JObj _) => NaN
  end.

(** The body of the loop of [generateOrgId]: the new value of [maxId]. *)
Definition scan (maxId : Z) (o : org) : Z :=
  match ToNumber (ORG_ID o) with
  | Fin idNum =>
      if (MIN_ORG_ID <=? idNum) && (idNum <=? MAX_ORG_ID)
      then (if maxId <? idNum then idNum else maxId)
      else maxId
  | _ => maxId
  end.

(** The local [next] of [generateOrgId]. *)
Definition candidate (orgs : list org) : Z :=
  fold_left scan orgs (MIN_ORG_ID - 1) + 1.

Definition generateOrgId (orgs : list org) : result Z :=
  let next := candidate orgs in
  if MAX_ORG_ID <? next then Throw "OrgId range exhausted" else Return next.

(** case 'getAllOrg' *)
Definition getAllOrg : handler response :=
  orgs <- readOrgs ;;
  ret (success (JArr (map org_json orgs)) "Org list fetched successfully").

(** case 'createOrg' *)
Definition createOrg (req : body) : handler response :=
  match orgName req with
  | None => ret (failure 400 "Missing orgName")
  | Some name =>
      if (name =? "")%string then ret (failure 400 "Missing orgName") else
      orgs <- readOrgs ;;
      if existsb (fun o => same_name (ORG_NAME o) name) orgs
      then ret (failure 409 "OrgName already exists")
      else
        match generateOrgId orgs with
        | Throw message => ret (failure 500 message)
        | Return newId =>
            let newOrg :=
              {| ORG_ID := Some (JNum newId); ORG_NAME := Some (JStr name) |} in
            writeOrgs (orgs ++ [newOrg]) ;;;
            ret (success (org_json newOrg) "Org created successfully")
        end
  end.

(** The configuration served for [orgId] out of the configuration map:
    lines 190-198 of case 'getOrgConfig'. *)
Definition resolve (configs : obj) (orgId : string) : value :=
  match get configs orgId with
  | Some config =>
      if truthyValue (Some config) then config else Json (fallback configs)
  | None => Json (fallback configs)
  end.

(** case 'getOrgConfig' *)
Definition getOrgConfig (req : body) : handler response :=
  match orgId req with
  | None => ret (failure 400 "Missing orgId")
  | Some id =>
      if (id =? "")%string then ret (failure 400 "Missing orgId") else
      orgs <- readOrgs ;;
      if negb (existsb (fun o => (ToString (ORG_ID o) =? id)%string) orgs)
      then ret (failure 500 "OrgId not found")
      else
        configs <- readConfigs ;;
        ret (res_json (resolve configs id) "Org config fetched successfully")
  end.

(** Lines 220-229 of case 'updateOrgConfig': a [config] that is a string
    is parsed, any other value is used as it is; [None] when [JSON.parse]
    throws. *)
Definition decode (raw : json) : option json :=
  match raw with
  | JStr s => JSON_parse s
  | _ => Some raw
  end.

(** The merged document of case 'updateOrgConfig': lines 233-239. *)
Definition mergedConfig (configs : obj) (orgId : string) (config : json) : obj :=
  let existingConfig :=
    if truthyValue (get configs orgId) then get configs orgId
    else Some (Json (JObj DEFAULT_CONFIG)) in
  spread2 (spreadable existingConfig) (Some config).

(** The record auto-created for an unseen [orgId]; an infinite number is
    written to the file as [null]. *)
Definition autoOrg (orgId : string) (name : option string) : org :=
  {| ORG_ID :=
       Some (match StringToNumber orgId with
             | NaN => JStr orgId
             | Fin z => JNum z
             | PosInf | NegInf => JNull
             end);
     ORG_NAME :=
       Some (JStr (match name with
                   | Some n => if (n =? "")%string then "Org-" ++ orgId else n
                   | None => "Org-" ++ orgId
                   end)%string) |}.

(** case 'updateOrgConfig' *)
Definition updateOrgConfig (req : body) : handler response :=
  match orgId req, config req with
  | Some id, Some raw =>
      if negb (present (Some id)) || negb (truthy (Some raw))
      then ret (failure 400 "Missing orgId or config")
      else
        match decode raw with
        | None => ret (failure 400 "Invalid JSON in config field")
        | Some config =>
            configs <- readConfigs ;;
            let merged := mergedConfig configs id config in
            writeConfigs (put id (JObj merged) configs) ;;;
            orgs <- readOrgs ;;
            match find (fun o => (ToString (ORG_ID o) =? id)%string) orgs with
            | Some existingOrg =>
                ret (success (JObj merged) "Org config updated successfully")
            | None =>
                writeOrgs (orgs ++ [autoOrg id (orgName req)]) ;;;
                ret (success (JObj merged) "Org config updated successfully")
            end
        end
  | _, _ => ret (failure 400 "Missing orgId or config")
  end.

(** The single entry point: POST /api/v2/crawler. *)
Definition crawler (req : body) : handler response :=
  match action req with
  | None => ret (failure 400 "Missing action parameter")
  | Some a =>
      if (a =? "")%string then ret (failure 400 "Missing action parameter")
      else if (a =? "getAllOrg")%string then getAllOrg
      else if (a =? "createOrg")%string then createOrg req
      else if (a =? "getOrgConfig")%string then getOrgConfig req
      else if (a =? "updateOrgConfig")%string then updateOrgConfig req
      else ret (failure 400 ("Unknown action: " ++ a)%string)
  end.

(** *** The allocator in the words of the specification

    The identifier of an organization when, read as a number, it is
    finite and inside the band; the identifiers observed in a list; and
    the candidate max(observed in-range ids, MIN_ORG_ID - 1) + 1. *)

Definition inBand (o : org) : option Z :=
  match ToNumber (ORG_ID o) with
  | Fin z => if (MIN_ORG_ID <=? z) && (z <=? MAX_ORG_ID) then Some z else None
  | _ => None
  end.

Definition observed (orgs : list org) : list Z :=
  flat_map (fun o => match inBand o with Some z => [z] | None => [] end) orgs.

Definition spec_candidate (orgs : list org) : Z :=
  fold_right Z.max (MIN_ORG_ID - 1) (observed orgs) + 1.

(** The identifiers of a list that read as finite numbers. *)
Definition numericIds (orgs : list org) : list Z :=
  flat_map (fun o => match ToNumber (ORG_ID o) with
                     | Fin z => [z]
                     | _ => []
                     end) orgs.

(** ** Objects: own properties and their enumeration *)

Lemma lookup_In (o : obj) (k : string) (v : json) :
  lookup o k = Some v -> In (k, v) o.
Proof.
  induction o as [|[k' v'] r IH]; simpl; [discriminate|].
  destruct (String.eqb_spec k' k) as [->|Hne].
  - intros [= ->]. now left.
  - intros H. right. now apply IH.
Qed.

Lemma lookup_None (o : obj) (k : string) :
  lookup o k = None <-> ~ In k (map fst o).
Proof.
  induction o as [|[k' v'] r IH]; simpl.
  - split; [intros _ []|reflexivity].
  - destruct (String.eqb_spec k' k) as [->|Hne].
    + split; [discriminate|]. intros H. exfalso. apply H. now left.
    + rewrite IH. split.
      * intros H [E|E]; [now apply Hne|now apply H].
      * intros H E. apply H. now right.
Qed.

Lemma In_lookup (o : obj) (k : string) (v : json) :
  NoDup (map fst o) -> In (k, v) o -> lookup o k = Some v.
Proof.
  induction o as [|[k' v'] r IH]; simpl; [intros _ []|].
  intros Hnd [E|E].
  - injection E as -> ->. now rewrite String.eqb_refl.
  - inversion Hnd as [|? ? Hnotin Hnd']; subst.
    destruct (String.eqb_spec k' k) as [->|Hne].
    + exfalso. apply Hnotin. change k with (fst (k, v)). now apply in_map.
    + now apply IH.
Qed.

Lemma lookup_set (o : obj) (k k' : string) (v : json) :
  lookup (set k v o) k' = if (k =? k')%string then Some v else lookup o k'.
Proof.
  induction o as [|[k0 v0] r IH]; simpl.
  - reflexivity.
  - destruct (String.eqb_spec k0 k) as [->|Hne]; simpl.
    + destruct (String.eqb_spec k k'); reflexivity.
    + rewrite IH. destruct (String.eqb_spec k0 k') as [->|Hne'].
      * destruct (String.eqb_spec k k') as [->|_]; [now elim Hne|reflexivity].
      * reflexivity.
Qed.

Lemma lookup_filter_neq (o : obj) (k k' : string) :
  lookup (filter (fun p => negb (fst p =? k)%string) o) k' =
  if (k =? k')%string then None else lookup o k'.
Proof.
  induction o as [|[k0 v0] r IH]; simpl.
  - now destruct (k =? k')%string.
  - destruct (String.eqb_spec k0 k) as [->|Hne]; simpl.
    + rewrite IH. destruct (String.eqb_spec k k'); reflexivity.
    + rewrite IH. destruct (String.eqb_spec k0 k') as [->|Hne'].
      * destruct (String.eqb_spec k k') as [->|_]; [now elim Hne|reflexivity].
      * reflexivity.
Qed.

Lemma lookup_dedup (o : obj) (k : string) : lookup (dedup o) k = lookup o k.
Proof.
  induction o as [|[k0 v0] r IH]; simpl; [reflexivity|].
  destruct (String.eqb_spec k0 k) as [->|Hne]; [reflexivity|].
  rewrite lookup_filter_neq, IH.
  destruct (String.eqb_spec k0 k); [contradiction|reflexivity].
Qed.

Lemma NoDup_keys_filter (f : string * json -> bool) (o : obj) :
  NoDup (map fst o) -> NoDup (map fst (filter f o)).
Proof.
  induction o as [|p r IH]; simpl; [constructor|].
  intros Hnd. inversion Hnd as [|? ? Hnotin Hnd']; subst.
  destruct (f p); simpl; [|now apply IH].
  constructor; [|now apply IH].
  intros Hin. apply Hnotin. apply in_map_iff in Hin as [q [Hq Hin]].
  apply filter_In in Hin as [Hin _]. rewrite <- Hq. now apply in_map.
Qed.

Lemma NoDup_keys_dedup (o : obj) : NoDup (map fst (dedup o)).
Proof.
  induction o as [|[k0 v0] r IH]; simpl; constructor.
  - intros Hin. apply in_map_iff in Hin as [[k1 v1] [Hk Hin]].
    apply filter_In in Hin as [_ Hneq]. simpl in *. subst k1.
    now rewrite String.eqb_refl in Hneq.
  - now apply NoDup_keys_filter.
Qed.

Lemma insert_index_perm (p : string * json) (l : obj) :
  Permutation (insert_index p l) (p :: l).
Proof.
  induction l as [|q r IH]; simpl; [reflexivity|].
  destruct (index_of p <=? index_of q)%N; [reflexivity|].
  rewrite IH. apply perm_swap.
Qed.

Lemma sort_index_perm (l : obj) : Permutation (sort_index l) l.
Proof.
  induction l as [|p r IH]; simpl; [reflexivity|].
  rewrite insert_index_perm. now constructor.
Qed.

Lemma partition_perm (f : string * json -> bool) (l : obj) :
  Permutation (filter f l ++ filter (fun p => negb (f p)) l) l.
Proof.
  induction l as [|p r IH]; simpl; [reflexivity|].
  destruct (f p); simpl.
  - now constructor.
  - symmetry. apply Permutation_cons_app. now symmetry.
Qed.

Lemma own_entries_perm (o : obj) : Permutation (own_entries o) (dedup o).
Proof.
  unfold own_entries. rewrite sort_index_perm. apply partition_perm.
Qed.

Lemma NoDup_keys_own_entries (o : obj) : NoDup (map fst (own_entries o)).
Proof.
  eapply Permutation_NoDup.
  - symmetry. apply Permutation_map. apply own_entries_perm.
  - apply NoDup_keys_dedup.
Qed.

Lemma In_own_entries (o : obj) (k : string) (v : json) :
  In (k, v) (own_entries o) <-> lookup o k = Some v.
Proof.
  rewrite <- lookup_dedup. split.
  - intros Hin. apply In_lookup; [apply NoDup_keys_dedup|].
    eapply Permutation_in; [apply own_entries_perm|exact Hin].
  - intros Hl. eapply Permutation_in.
    + symmetry. apply own_entries_perm.
    + now apply lookup_In.
Qed.

Lemma lookup_own_entries (o : obj) (k : string) :
  lookup (own_entries o) k = lookup o k.
Proof.
  destruct (lookup o k) as [v|] eqn:E.
  - apply In_lookup; [apply NoDup_keys_own_entries|]. now apply In_own_entries.
  - destruct (lookup (own_entries o) k) as [v|] eqn:E'; [|reflexivity].
    apply lookup_In, In_own_entries in E'. congruence.
Qed.

Lemma In_Object_values (o : obj) (v : json) :
  In v (Object_values o) <-> exists k, lookup o k = Some v.
Proof.
  unfold Object_values. rewrite in_map_iff. split.
  - intros [[k v'] [E Hin]]. simpl in E. subst v'.
    exists k. now apply In_own_entries.
  - intros [k Hl]. exists (k, v). split; [reflexivity|].
    now apply In_own_entries.
Qed.

Lemma lookup_assign_absent (es o : obj) (k : string) :
  lookup es k = None -> lookup (assign o es) k = lookup o k.
Proof.
  unfold assign. revert o.
  induction es as [|[k0 v0] r IH]; simpl; intros o; [reflexivity|].
  destruct (String.eqb_spec k0 k) as [->|Hne]; [discriminate|].
  intros Hr. rewrite (IH _ Hr), lookup_set.
  destruct (String.eqb_spec k0 k); [contradiction|reflexivity].
Qed.

Lemma lookup_assign (es o : obj) (k : string) :
  NoDup (map fst es) ->
  lookup (assign o es) k =
  match lookup es k with Some v => Some v | None => lookup o k end.
Proof.
  unfold assign. revert o.
  induction es as [|[k0 v0] r IH]; simpl; intros o Hnd; [reflexivity|].
  inversion Hnd as [|? ? Hnotin Hnd']; subst.
  rewrite (IH _ Hnd'), lookup_set.
  destruct (String.eqb_spec k0 k) as [->|Hne]; [|reflexivity].
  apply lookup_None in Hnotin. now rewrite Hnotin.
Qed.

Lemma lookup_spread2_objects (B : obj) (b : option json) (k : string) :
  lookup (entries b) k = None ->
  lookup (spread2 (Some (JObj B)) b) k = lookup B k.
Proof.
  intros Hb. unfold spread2. rewrite (lookup_assign_absent _ _ _ Hb).
  simpl. rewrite lookup_assign by apply NoDup_keys_own_entries.
  rewrite lookup_own_entries. now destruct (lookup B k).
Qed.

(** *** Enumeration order and the removal of a property *)

Lemma filter_swap (f g : string * json -> bool) (l : obj) :
  filter f (filter g l) = filter g (filter f l).
Proof.
  induction l as [|p r IH]; simpl; [reflexivity|].
  destruct (g p) eqn:Eg, (f p) eqn:Ef; simpl; rewrite ?Eg, ?Ef, IH; reflexivity.
Qed.

Lemma filter_twice (f : string * json -> bool) (l : obj) :
  filter f (filter f l) = filter f l.
Proof.
  induction l as [|p r IH]; simpl; [reflexivity|].
  destruct (f p) eqn:Ef; simpl; rewrite ?Ef, IH; reflexivity.
Qed.

Lemma dedup_delete (k : string) (o : obj) :
  dedup (delete k o) = delete k (dedup o).
Proof.
  unfold delete. induction o as [|[k0 v0] r IH]; simpl; [reflexivity|].
  destruct (String.eqb_spec k0 k) as [->|Hne]; simpl.
  - now rewrite filter_twice.
  - rewrite IH. f_equal. apply filter_swap.
Qed.

Lemma insert_index_least (p : string * json) (l : obj) :
  Forall (fun q => (index_of p <= index_of q)%N) l ->
  insert_index p l = p :: l.
Proof.
  destruct l as [|q r]; simpl; [reflexivity|].
  intros H. inversion H as [|? ? Hq _]; subst.
  apply N.leb_le in Hq. now rewrite Hq.
Qed.

Lemma insert_index_sorted (p : string * json) (l : obj) :
  StronglySorted (fun a b => (index_of a <= index_of b)%N) l ->
  StronglySorted (fun a b => (index_of a <= index_of b)%N) (insert_index p l).
Proof.
  induction l as [|q r IH]; simpl; intros Hs.
  - repeat constructor.
  - inversion Hs as [|? ? Hr Hq]; subst.
    destruct (N.leb_spec (index_of p) (index_of q)) as [Hle|Hgt].
    + constructor; [exact Hs|]. constructor; [exact Hle|].
      eapply Forall_impl; [|exact Hq]. simpl. intros a Ha. lia.
    + constructor; [now apply IH|].
      eapply Permutation_Forall.
      * symmetry. apply insert_index_perm.
      * constructor; [lia|exact Hq].
Qed.

Lemma sort_index_sorted (l : obj) :
  StronglySorted (fun a b => (index_of a <= index_of b)%N) (sort_index l).
Proof.
  induction l as [|p r IH]; simpl; [constructor|].
  now apply insert_index_sorted.
Qed.

Lemma filter_insert_index (g : string * json -> bool) (p : string * json) (l : obj) :
  StronglySorted (fun a b => (index_of a <= index_of b)%N) l ->
  filter g (insert_index p l) =
  if g p then insert_index p (filter g l) else filter g l.
Proof.
  induction l as [|q r IH]; simpl; intros Hs.
  - now destruct (g p).
  - inversion Hs as [|? ? Hr Hq]; subst.
    destruct (N.leb_spec (index_of p) (index_of q)) as [Hle|Hgt]; simpl.
    + destruct (g p) eqn:Egp; [|reflexivity].
      symmetry. apply insert_index_least.
      destruct (g q).
      * constructor; [exact Hle|].
        apply Forall_forall. intros a Ha. apply filter_In in Ha as [Ha _].
        rewrite Forall_forall in Hq. specialize (Hq a Ha). simpl in Hq. lia.
      * apply Forall_forall. intros a Ha. apply filter_In in Ha as [Ha _].
        rewrite Forall_forall in Hq. specialize (Hq a Ha). simpl in Hq. lia.
    + rewrite (IH Hr). destruct (g q) eqn:Egq, (g p) eqn:Egp; simpl;
        try reflexivity.
      destruct (N.leb_spec (index_of p) (index_of q)); [lia|reflexivity].
Qed.

Lemma sort_index_filter (g : string * json -> bool) (l : obj) :
  sort_index (filter g l) = filter g (sort_index l).
Proof.
  induction l as [|p r IH]; simpl; [reflexivity|].
  rewrite filter_insert_index by apply sort_index_sorted.
  destruct (g p); simpl; now rewrite IH.
Qed.

Lemma own_entries_delete (k : string) (o : obj) :
  own_entries (delete k o) = delete k (own_entries o).
Proof.
  unfold own_entries. rewrite dedup_delete. unfold delete.
  rewrite filter_app, <- sort_index_filter.
  now rewrite (filter_swap is_index), (filter_swap (fun p => negb (is_index p))).
Qed.

(** ** The identifier allocator *)

Lemma scan_inBand (m : Z) (o : org) :
  scan m o = match inBand o with Some z => Z.max m z | None => m end.
Proof.
  unfold scan, inBand.
  destruct (ToNumber (ORG_ID o)); try reflexivity.
  destruct ((MIN_ORG_ID <=? z) && (z <=? MAX_ORG_ID)); [|reflexivity].
  destruct (Z.ltb_spec m z); lia.
Qed.

Lemma inBand_spec (o : org) (z : Z) :
  inBand o = Some z <->
  ToNumber (ORG_ID o) = Fin z /\ MIN_ORG_ID <= z <= MAX_ORG_ID.
Proof.
  unfold inBand.
  destruct (ToNumber (ORG_ID o)) as [z'| | |].
  - destruct (Z.leb_spec MIN_ORG_ID z'), (Z.leb_spec z' MAX_ORG_ID); simpl;
      split; try discriminate.
    + intros [= ->]. split; [reflexivity|lia].
    + now intros [[= ->] _].
    + intros [[= ->] ?]. lia.
    + intros [[= ->] ?]. lia.
    + intros [[= ->] ?]. lia.
  - split; [discriminate|now intros [? _]].
  - split; [discriminate|now intros [? _]].
  - split; [discriminate|now intros [? _]].
Qed.

Lemma In_observed (orgs : list org) (z : Z) :
  In z (observed orgs) <-> exists o, In o orgs /\ inBand o = Some z.
Proof.
  unfold observed. rewrite in_flat_map. split.
  - intros [o [Hin Hz]]. exists o. split; [exact Hin|].
    destruct (inBand o); simpl in Hz; [|contradiction].
    destruct Hz as [->|[]]. reflexivity.
  - intros [o [Hin Hz]]. exists o. split; [exact Hin|].
    rewrite Hz. now left.
Qed.

Lemma max_fold_shift (l : list Z) (a b : Z) :
  fold_right Z.max (Z.max a b) l = Z.max b (fold_right Z.max a l).
Proof. induction l as [|x r IH]; simpl; [|rewrite IH]; lia. Qed.

Lemma fold_scan (orgs : list org) (m : Z) :
  fold_left scan orgs m = fold_right Z.max m (observed orgs).
Proof.
  revert m. induction orgs as [|o r IH]; intros m; simpl; [reflexivity|].
  rewrite IH, scan_inBand. destruct (inBand o) as [z|]; simpl; [|reflexivity].
  apply max_fold_shift.
Qed.

Lemma candidate_spec (orgs : list org) : candidate orgs = spec_candidate orgs.
Proof.
  unfold candidate, spec_candidate. now rewrite fold_scan.
Qed.

Lemma max_fold_bounds (l : list Z) (a : Z) :
  a <= fold_right Z.max a l /\ forall z, In z l -> z <= fold_right Z.max a l.
Proof.
  induction l as [|x r [IHa IHl]]; simpl.
  - split; [lia|intros z []].
  - split; [lia|]. intros z [->|Hin]; [lia|].
    specialize (IHl z Hin). lia.
Qed.

Lemma max_fold_attained (l : list Z) (a : Z) :
  fold_right Z.max a l = a \/ In (fold_right Z.max a l) l.
Proof.
  induction l as [|x r IH]; simpl; [now left|].
  destruct (Z.max_spec x (fold_right Z.max a r)) as [[_ E]|[_ E]]; rewrite E.
  - destruct IH as [IH|IH]; [now left|right; now right].
  - right. now left.
Qed.

Lemma observed_in_band (orgs : list org) (z : Z) :
  In z (observed orgs) -> MIN_ORG_ID <= z <= MAX_ORG_ID.
Proof.
  intros Hin. apply In_observed in Hin as [o [_ Ho]].
  now apply inBand_spec in Ho.
Qed.

Lemma observed_filter (orgs : list org) :
  observed (filter (fun o => match inBand o with Some _ => true | None => false end) orgs)
  = observed orgs.
Proof.
  induction orgs as [|o r IH]; simpl; [reflexivity|].
  destruct (inBand o) as [z|] eqn:E; simpl; [|exact IH].
  now rewrite E, IH.
Qed.


Lemma generateOrgId_spec (orgs : list org) :
  generateOrgId orgs =
  if MAX_ORG_ID <? spec_candidate orgs
  then Throw "OrgId range exhausted"
  else Return (spec_candidate orgs).
Proof. unfold generateOrgId. now rewrite candidate_spec. Qed.

Lemma spec_candidate_above (orgs : list org) (o : org) (z : Z) :
  In o orgs -> ToNumber (ORG_ID o) = Fin z ->
  MIN_ORG_ID <= z <= MAX_ORG_ID -> z < spec_candidate orgs.
Proof.
  intros Hin Hnum Hband. unfold spec_candidate.
  assert (Hobs : In z (observed orgs)).
  { apply In_observed. exists o. split; [exact Hin|]. now apply inBand_spec. }
  destruct (max_fold_bounds (observed orgs) (MIN_ORG_ID - 1)) as [_ Hle].
  specialize (Hle z Hobs). lia.
Qed.

Lemma spec_candidate_empty (orgs : list org) :
  (forall o, In o orgs -> inBand o = None) -> spec_candidate orgs = MIN_ORG_ID.
Proof.
  intros Hnone. unfold spec_candidate.
  destruct (max_fold_attained (observed orgs) (MIN_ORG_ID - 1)) as [E|Hin].
  - rewrite E. lia.
  - apply In_observed in Hin as [o [Hin Ho]].
    rewrite (Hnone o Hin) in Ho. discriminate.
Qed.

Lemma spec_candidate_range (orgs : list org) :
  MIN_ORG_ID <= spec_candidate orgs <= MAX_ORG_ID + 1.
Proof.
  unfold spec_candidate.
  destruct (max_fold_bounds (observed orgs) (MIN_ORG_ID - 1)) as [Hlo _].
  destruct (max_fold_attained (observed orgs) (MIN_ORG_ID - 1)) as [E|Hin].
  - rewrite E. unfold MIN_ORG_ID, MAX_ORG_ID. lia.
  - apply observed_in_band in Hin. lia.
Qed.

(** C1.  [generateOrgId] computes max(observed in-range ids,
    MIN_ORG_ID - 1) + 1 and returns it unless the band is exhausted: an
    identifier it returns lies in the band and is strictly greater than
    every identifier of the list that, read as a number, is finite and
    inside [1000000000000, 1999999999999]; the other organizations do not
    count (the candidate of a list is the candidate of its in-band
    records); and the result is MIN_ORG_ID when the list has no in-band
    identifier, the empty list included. *)
Theorem C1_allocate_next_after_maximum (orgs : list org) :
  candidate orgs = spec_candidate orgs
  /\ generateOrgId orgs =
       (if MAX_ORG_ID <? spec_candidate orgs
        then Throw "OrgId range exhausted"
        else Return (spec_candidate orgs))
  /\ (forall id, generateOrgId orgs = Return id ->
        MIN_ORG_ID <= id <= MAX_ORG_ID /\
        forall o z, In o orgs -> ToNumber (ORG_ID o) = Fin z ->
                    MIN_ORG_ID <= z <= MAX_ORG_ID -> z < id)
  /\ candidate orgs =
       candidate (filter (fun o => match inBand o with
                                   | Some _ => true
                                   | None => false
                                   end) orgs)
  /\ ((forall o, In o orgs -> inBand o = None) ->
        generateOrgId orgs = Return MIN_ORG_ID)
  /\ generateOrgId [] = Return MIN_ORG_ID.
Proof.
  split; [apply candidate_spec|].
  split; [apply generateOrgId_spec|].
  split; [|split; [|split]].
  - intros id. rewrite generateOrgId_spec.
    destruct (Z.ltb_spec MAX_ORG_ID (spec_candidate orgs)) as [Hgt|Hle];
      [discriminate|].
    intros [= <-]. split.
    + pose proof (spec_candidate_range orgs). lia.
    + intros o z. apply spec_candidate_above.
  - rewrite !candidate_spec. unfold spec_candidate.
    now rewrite observed_filter.
  - intros Hnone. rewrite generateOrgId_spec, (spec_candidate_empty _ Hnone).
    reflexivity.
  - reflexivity.
Qed.

(** C5.  [generateOrgId] throws 'OrgId range exhausted' exactly when the
    candidate max(in-range ids, MIN_ORG_ID - 1) + 1 exceeds MAX_ORG_ID =
    1999999999999, and returns an identifier exactly when it does not; in
    particular it throws, and returns no identifier, for every list that
    holds an organization whose identifier is MAX_ORG_ID. *)
Theorem C5_allocate_range_exhausted (orgs : list org) :
  (generateOrgId orgs = Throw "OrgId range exhausted" <->
   MAX_ORG_ID < spec_candidate orgs)
  /\ ((exists id, generateOrgId orgs = Return id) <->
      spec_candidate orgs <= MAX_ORG_ID)
  /\ ((exists o, In o orgs /\ ToNumber (ORG_ID o) = Fin MAX_ORG_ID) ->
      generateOrgId orgs = Throw "OrgId range exhausted" /\
      forall id, generateOrgId orgs <> Return id).
Proof.
  rewrite generateOrgId_spec.
  destruct (Z.ltb_spec MAX_ORG_ID (spec_candidate orgs)) as [Hgt|Hle].
  - split; [tauto|]. split.
    + split; [intros [id H]; discriminate|lia].
    + intros _. split; [reflexivity|discriminate].
  - split; [split; [discriminate|lia]|]. split.
    + split; [intros _; exact Hle|intros _; eexists; reflexivity].
    + intros [o [Hin Hnum]]. exfalso.
      assert (MAX_ORG_ID < spec_candidate orgs); [|lia].
      apply (spec_candidate_above orgs o); [exact Hin|exact Hnum|].
      unfold MIN_ORG_ID, MAX_ORG_ID. lia.
Qed.


(** ** The configuration merger *)

(** C2.  For a base document B and a partial document P, every key of P
    is in the merge with the value P gives it, every other key is as in
    B (present with the value of B, or absent as in B), and a nested
    structure of P replaces a same-named nested structure of B whole;
    the merged document of 'updateOrgConfig' is this merge when the map
    holds a document for the organization. *)
Theorem C2_merge_is_shallow_overwrite (B P : obj) :
  (forall k, lookup P k = None ->
     lookup (spread2 (Some (JObj B)) (Some (JObj P))) k = lookup B k)
  /\ (forall k v, lookup P k = Some v ->
        lookup (spread2 (Some (JObj B)) (Some (JObj P))) k = Some v)
  /\ (forall k old new, lookup B k = Some (JObj old) ->
        lookup P k = Some (JObj new) ->
        lookup (spread2 (Some (JObj B)) (Some (JObj P))) k = Some (JObj new))
  /\ (forall configs id, lookup configs id = Some (JObj B) ->
        mergedConfig configs id (JObj P) =
        spread2 (Some (JObj B)) (Some (JObj P))).
Proof.
  assert (Hov : forall k v, lookup P k = Some v ->
            lookup (spread2 (Some (JObj B)) (Some (JObj P))) k = Some v).
  { intros k v Hk. unfold spread2.
    rewrite lookup_assign by apply NoDup_keys_own_entries.
    simpl. now rewrite lookup_own_entries, Hk. }
  split; [|split; [exact Hov|split]].
  - intros k Hk. apply lookup_spread2_objects.
    simpl. now rewrite lookup_own_entries.
  - intros k old new _ Hk. now apply Hov.
  - intros configs id Hid. unfold mergedConfig, get. now rewrite Hid.
Qed.


(** ** The configuration resolver *)

Lemma isDefault_spec (c : json) :
  isDefault c = true <-> property c "isDefault" = Some (JBool true).
Proof.
  unfold isDefault. split.
  - intros H. apply andb_prop in H as [_ H].
    destruct (property c "isDefault") as [[| [|] | | | |]|]; congruence.
  - intros H. rewrite H. destruct c; simpl in *; try discriminate. reflexivity.
Qed.

Lemma isDefault_truthy (c : json) : isDefault c = true -> truthy (Some c) = true.
Proof. unfold isDefault. intros H. now apply andb_prop in H as [H _]. Qed.

Lemma find_first (p : json -> bool) (l1 l2 : list json) (d : json) :
  (forall c, In c l1 -> p c = false) -> p d = true ->
  find p (l1 ++ d :: l2) = Some d.
Proof.
  induction l1 as [|x r IH]; simpl; intros Hl1 Hd.
  - now rewrite Hd.
  - rewrite (Hl1 x (or_introl eq_refl)). apply IH; [|exact Hd].
    intros c Hc. apply Hl1. now right.
Qed.

Lemma find_none_iff (p : json -> bool) (l : list json) :
  find p l = None <-> forall c, In c l -> p c = false.
Proof.
  split; [apply find_none|].
  induction l as [|x r IH]; simpl; intros H; [reflexivity|].
  rewrite (H x (or_introl eq_refl)). apply IH. intros c Hc. apply H. now right.
Qed.

Lemma fallback_truthy (configs : obj) : truthy (Some (fallback configs)) = true.
Proof.
  unfold fallback. destruct (find isDefault (Object_values configs)) eqn:E.
  - apply find_some in E as [_ E]. now apply isDefault_truthy.
  - reflexivity.
Qed.

Lemma find_values_filter (g : string * json -> bool) (es : obj) :
  (forall e, In e es -> g e = false -> isDefault (snd e) = false) ->
  find isDefault (map snd (filter g es)) = find isDefault (map snd es).
Proof.
  induction es as [|e r IH]; simpl; intros H; [reflexivity|].
  assert (Hr : forall e', In e' r -> g e' = false -> isDefault (snd e') = false).
  { intros e' He'. apply H. now right. }
  destruct (g e) eqn:Eg; simpl.
  - now rewrite (IH Hr).
  - rewrite (H e (or_introl eq_refl) Eg). now apply IH.
Qed.

Lemma fallback_delete (configs : obj) (k : string) (v : json) :
  lookup configs k = Some v -> isDefault v = false ->
  fallback (delete k configs) = fallback configs.
Proof.
  intros Hk Hv. unfold fallback, Object_values.
  rewrite own_entries_delete. unfold delete.
  rewrite find_values_filter; [reflexivity|].
  intros [k' v'] Hin Hg. simpl in *.
  apply negb_false_iff, String.eqb_eq in Hg. subst k'.
  apply In_own_entries in Hin. congruence.
Qed.

Lemma lookup_delete (configs : obj) (k : string) :
  lookup (delete k configs) k = None.
Proof. unfold delete. now rewrite lookup_filter_neq, String.eqb_refl. Qed.

(** *** Reading and writing under a key of the caller *)

Lemma get_own (o : obj) (k : string) (j : json) :
  lookup o k = Some j -> get o k = Some (Json j).
Proof. intros H. unfold get. now rewrite H. Qed.

Lemma get_absent (o : obj) (k : string) :
  lookup o k = None -> inherited k = false -> get o k = None.
Proof. intros H Hk. unfold get. now rewrite H, Hk. Qed.

Lemma get_inherited (o : obj) (k : string) :
  lookup o k = None -> inherited k = true -> get o k = Some (Member k).
Proof. intros H Hk. unfold get. now rewrite H, Hk. Qed.

Lemma inherited_not_proto (k : string) : inherited k = false -> k <> "__proto__".
Proof. intros H ->. discriminate. Qed.

Lemma lookup_put_other (o : obj) (k k' : string) (v : json) :
  k <> k' -> lookup (put k v o) k' = lookup o k'.
Proof.
  intros Hne. unfold put.
  assert (E : lookup (set k v o) k' = lookup o k').
  { rewrite lookup_set. destruct (String.eqb_spec k k'); [contradiction|reflexivity]. }
  destruct (lookup o k); [exact E|].
  destruct (k =? "__proto__")%string; [reflexivity|exact E].
Qed.

Lemma lookup_put_same (o : obj) (k : string) (v : json) :
  k <> "__proto__" \/ lookup o k <> None -> lookup (put k v o) k = Some v.
Proof.
  intros H. unfold put.
  assert (E : lookup (set k v o) k = Some v).
  { now rewrite lookup_set, String.eqb_refl. }
  destruct (lookup o k) eqn:Hk; [exact E|].
  destruct (String.eqb_spec k "__proto__") as [->|_]; [|exact E].
  destruct H as [H|H]; now elim H.
Qed.

Lemma resolve_own (configs : obj) (id : string) (c : json) :
  lookup configs id = Some c -> truthy (Some c) = true ->
  resolve configs id = Json c.
Proof.
  intros Hc Ht. unfold resolve. rewrite (get_own _ _ _ Hc). unfold truthyValue. now rewrite Ht.
Qed.

Lemma resolve_falsy (configs : obj) (id : string) (c : json) :
  lookup configs id = Some c -> truthy (Some c) = false ->
  resolve configs id = Json (fallback configs).
Proof.
  intros Hc Ht. unfold resolve. rewrite (get_own _ _ _ Hc). unfold truthyValue. now rewrite Ht.
Qed.

Lemma resolve_absent (configs : obj) (id : string) :
  lookup configs id = None -> inherited id = false ->
  resolve configs id = Json (fallback configs).
Proof. intros Hc Hk. unfold resolve. now rewrite (get_absent _ _ Hc Hk). Qed.

Lemma resolve_inherited (configs : obj) (id : string) :
  lookup configs id = None -> inherited id = true ->
  resolve configs id = Member id.
Proof. intros Hc Hk. unfold resolve. now rewrite (get_inherited _ _ Hc Hk). Qed.

Lemma getOrgConfig_run (req : body) (st : store) (id : string) :
  orgId req = Some id -> id <> "" ->
  (exists o, In o (ORG_FILE st) /\ ToString (ORG_ID o) = id) ->
  getOrgConfig req st =
  (res_json (resolve (CONFIG_FILE st) id) "Org config fetched successfully", st).
Proof.
  intros Hid Hne [o [Hin Ho]].
  assert (Hex : existsb (fun o => (ToString (ORG_ID o) =? id)%string)
                  (ORG_FILE st) = true).
  { apply existsb_exists. exists o. split; [exact Hin|]. now apply String.eqb_eq. }
  unfold getOrgConfig. rewrite Hid.
  destruct (String.eqb_spec id ""); [contradiction|].
  unfold bind, readOrgs, readConfigs, ret. now rewrite Hex.
Qed.

(** Past the checks of 'getOrgConfig' (an [orgId] is given and a record
    of the organization list prints as it), the handler leaves both
    files as they were and answers as follows.  A truthy value stored
    under [orgId] is sent as it is.  With no entry for [orgId], and
    [orgId] not the name of a member of [Object.prototype], the first of
    the map's values in the order of [Object.values] whose [isDefault]
    is [true] is sent, or the hardcoded default when there is none.
    With no entry for an [orgId] that names a member of
    [Object.prototype], that member is what [configs[orgId]] yields, and
    neither a stored default nor the hardcoded one is sent. *)
Theorem getOrgConfig_precedence (req : body) (st : store) (id : string) :
  orgId req = Some id -> id <> "" ->
  (exists o, In o (ORG_FILE st) /\ ToString (ORG_ID o) = id) ->
  (forall c, lookup (CONFIG_FILE st) id = Some c -> truthy (Some c) = true ->
     getOrgConfig req st = (success c "Org config fetched successfully", st))
  /\ (lookup (CONFIG_FILE st) id = None -> inherited id = false ->
        (forall before d after,
            Object_values (CONFIG_FILE st) = before ++ d :: after ->
            (forall c, In c before ->
                       property c "isDefault" <> Some (JBool true)) ->
            property d "isDefault" = Some (JBool true) ->
            getOrgConfig req st =
            (success d "Org config fetched successfully", st))
        /\ ((forall c, In c (Object_values (CONFIG_FILE st)) ->
                       property c "isDefault" <> Some (JBool true)) ->
            getOrgConfig req st =
            (success (JObj DEFAULT_CONFIG) "Org config fetched successfully", st)))
  /\ (lookup (CONFIG_FILE st) id = None -> inherited id = true ->
        getOrgConfig req st =
        (res_json (Member id) "Org config fetched successfully", st)).
Proof.
  intros Hid Hne Hex. rewrite (getOrgConfig_run req st id Hid Hne Hex).
  split; [|split].
  - intros c Hc Ht. now rewrite (resolve_own _ _ _ Hc Ht).
  - intros Hnone Hk. rewrite (resolve_absent _ _ Hnone Hk). unfold fallback.
    split.
    + intros before d after Hvals Hbefore Hd. rewrite Hvals, find_first.
      * reflexivity.
      * intros c Hc. specialize (Hbefore c Hc).
        destruct (isDefault c) eqn:E; [|reflexivity].
        now apply isDefault_spec in E.
      * now apply isDefault_spec.
    + intros Hno.
      assert (E : find isDefault (Object_values (CONFIG_FILE st)) = None).
      { apply find_none_iff. intros c Hc. specialize (Hno c Hc).
        destruct (isDefault c) eqn:E; [|reflexivity].
        now apply isDefault_spec in E. }
      now rewrite E.
  - intros Hnone Hk. now rewrite (resolve_inherited _ _ Hnone Hk).
Qed.

(** When the configuration map has the key [orgId] mapped to a falsy
    value ([null], [false], [0] or the empty string), the resolver does
    not yield that value: it yields the first value of the map whose
    [isDefault] is [true], else the hardcoded default.  For an [orgId]
    that does not name a member of [Object.prototype] this is what it
    yields for the map without the key. *)
Theorem falsy_entry_is_skipped (configs : obj) (id : string) (v : json) :
  lookup configs id = Some v ->
  v = JNull \/ v = JBool false \/ v = JNum 0 \/ v = JStr "" ->
  resolve configs id <> Json v
  /\ resolve configs id =
       Json match find isDefault (Object_values configs) with
            | Some defaultInFile => defaultInFile
            | None => JObj DEFAULT_CONFIG
            end
  /\ (inherited id = false ->
      resolve configs id = resolve (delete id configs) id).
Proof.
  intros Hv Hfalsy.
  assert (Ht : truthy (Some v) = false).
  { destruct Hfalsy as [->|[->|[->| ->]]]; reflexivity. }
  pose proof (resolve_falsy configs id v Hv Ht) as Hr.
  split; [|split].
  - rewrite Hr. intros [= E]. pose proof (fallback_truthy configs) as Hf.
    rewrite E in Hf. congruence.
  - exact Hr.
  - intros Hk. rewrite Hr.
    rewrite (resolve_absent _ _ (lookup_delete configs id) Hk).
    f_equal. symmetry. apply (fallback_delete configs id v Hv).
    unfold isDefault. now rewrite Ht.
Qed.

(** ** 'updateOrgConfig' *)

Lemma find_present (f : org -> bool) (l : list org) :
  (exists o, In o l /\ f o = true) -> exists o, find f l = Some o.
Proof.
  intros [o [Hin Hf]]. destruct (find f l) as [o'|] eqn:E.
  - now exists o'.
  - rewrite (find_none f l E o Hin) in Hf. discriminate.
Qed.

(** A request that passes the presence check and decodes is answered
    with the merged document, which is written under [orgId]; a record is
    appended to the organization list when none prints as [orgId]. *)
Lemma updateOrgConfig_run (req : body) (st : store) (id : string) (raw c : json) :
  orgId req = Some id -> id <> "" ->
  config req = Some raw -> truthy (Some raw) = true -> decode raw = Some c ->
  updateOrgConfig req st =
    (success (JObj (mergedConfig (CONFIG_FILE st) id c))
             "Org config updated successfully",
     {| CONFIG_FILE :=
          put id (JObj (mergedConfig (CONFIG_FILE st) id c)) (CONFIG_FILE st);
        ORG_FILE :=
          match find (fun o => (ToString (ORG_ID o) =? id)%string) (ORG_FILE st) with
          | Some _ => ORG_FILE st
          | None => ORG_FILE st ++ [autoOrg id (orgName req)]
          end |}).
Proof.
  intros Hid Hne Hraw Ht Hdec. unfold updateOrgConfig.
  rewrite Hid, Hraw, Ht, Hdec. simpl.
  destruct (String.eqb_spec id ""); [contradiction|]. simpl.
  unfold bind, readConfigs, writeConfigs, readOrgs, writeOrgs, ret. simpl.
  destruct (find _ (ORG_FILE st)); reflexivity.
Qed.

Lemma updateOrgConfig_rejected (req : body) (st : store) :
  present (orgId req) = false \/ truthy (config req) = false ->
  updateOrgConfig req st = (failure 400 "Missing orgId or config", st).
Proof.
  unfold updateOrgConfig.
  destruct (orgId req) as [id|], (config req) as [raw|]; try reflexivity.
  intros [H|H]; rewrite H; simpl; rewrite ?orb_true_r; reflexivity.
Qed.

Lemma mergedConfig_unseen (configs : obj) (id : string) (c : json) :
  lookup configs id = None -> inherited id = false ->
  mergedConfig configs id c = spread2 (Some (JObj DEFAULT_CONFIG)) (Some c).
Proof.
  intros H Hk. unfold mergedConfig. now rewrite (get_absent _ _ H Hk).
Qed.

Lemma mergedConfig_inherited (configs : obj) (id : string) (c : json) :
  lookup configs id = None -> inherited id = true ->
  mergedConfig configs id c = spread2 None (Some c).
Proof.
  intros H Hk. unfold mergedConfig. now rewrite (get_inherited _ _ H Hk).
Qed.

Lemma mergedConfig_stored (configs : obj) (id : string) (c : json) (B : obj) :
  lookup configs id = Some (JObj B) ->
  mergedConfig configs id c = spread2 (Some (JObj B)) (Some c).
Proof.
  intros H. unfold mergedConfig. now rewrite (get_own _ _ _ H).
Qed.

Lemma NumberToString_small (z : Z) :
  Z.abs z <= 9007199254740992 -> NumberToString z = string_of_Z z.
Proof.
  intros H. unfold NumberToString.
  destruct (Z.leb_spec (Z.abs z) 9007199254740992); [reflexivity|lia].
Qed.

(** When the configuration map has no entry for the [orgId] of an
    'updateOrgConfig' request, and [orgId] does not name a member of
    [Object.prototype], the incoming document is merged into the
    hardcoded default document: the merged document, which is returned
    and stored under [orgId], has every field of DEFAULT_CONFIG whose key
    the incoming document does not carry, with its default value. *)
Theorem unseen_org_merges_into_default
  (req : body) (st : store) (id : string) (raw c : json) :
  orgId req = Some id -> id <> "" ->
  config req = Some raw -> truthy (Some raw) = true -> decode raw = Some c ->
  lookup (CONFIG_FILE st) id = None -> inherited id = false ->
  mergedConfig (CONFIG_FILE st) id c =
    spread2 (Some (JObj DEFAULT_CONFIG)) (Some c)
  /\ fst (updateOrgConfig req st) =
       success (JObj (spread2 (Some (JObj DEFAULT_CONFIG)) (Some c)))
               "Org config updated successfully"
  /\ lookup (CONFIG_FILE (snd (updateOrgConfig req st))) id =
       Some (JObj (spread2 (Some (JObj DEFAULT_CONFIG)) (Some c)))
  /\ (forall k v, lookup DEFAULT_CONFIG k = Some v ->
        lookup (entries (Some c)) k = None ->
        lookup (spread2 (Some (JObj DEFAULT_CONFIG)) (Some c)) k = Some v).
Proof.
  intros Hid Hne Hraw Ht Hdec Hnone Hk.
  rewrite (updateOrgConfig_run req st id raw c Hid Hne Hraw Ht Hdec).
  rewrite (mergedConfig_unseen _ _ _ Hnone Hk). simpl.
  split; [reflexivity|]. split; [reflexivity|]. split.
  - apply lookup_put_same. left. now apply inherited_not_proto.
  - intros k v Hv Hc. now rewrite lookup_spread2_objects.
Qed.

(** C6.  An 'updateOrgConfig' request whose [config] field is a text
    that [JSON.parse] rejects is answered with status 400 and writes
    neither file; when the request carries an [orgId] and the text is
    not empty, the answer is 'Invalid JSON in config field'. *)
Theorem C6_undecodable_config_is_rejected (req : body) (st : store) (s : string) :
  config req = Some (JStr s) -> JSON_parse s = None ->
  (exists message, updateOrgConfig req st = (failure 400 message, st))
  /\ (present (orgId req) = true -> s <> "" ->
      updateOrgConfig req st = (failure 400 "Invalid JSON in config field", st)).
Proof.
  intros Hraw Hparse.
  assert (Hpast : present (orgId req) = true -> s <> "" ->
            updateOrgConfig req st =
            (failure 400 "Invalid JSON in config field", st)).
  { intros Hp Hs. unfold updateOrgConfig. rewrite Hraw.
    destruct (orgId req) as [id|]; [|discriminate].
    rewrite Hp. simpl. destruct (String.eqb_spec s ""); [contradiction|].
    simpl. now rewrite Hparse. }
  split; [|exact Hpast].
  destruct (present (orgId req)) eqn:Hp.
  - destruct (String.eqb_spec s "") as [->|Hs].
    + eexists. apply updateOrgConfig_rejected. right. now rewrite Hraw.
    + eexists. now apply Hpast.
  - eexists. apply updateOrgConfig_rejected. now left.
Qed.

(** C8.  When a record of the organization list has an identifier that
    prints as the [orgId] of an 'updateOrgConfig' request (a number up to
    2^53 and the string of its decimal numeral print alike), the request
    leaves the organization list as it was: nothing is appended, the
    record is unchanged, and a list with exactly one record for that
    identifier still has exactly one. *)
Theorem C8_existing_org_is_not_recreated (req : body) (st : store) (id : string) :
  orgId req = Some id ->
  (exists o, In o (ORG_FILE st) /\
             (ORG_ID o = Some (JStr id) \/
              (exists z, ORG_ID o = Some (JNum z) /\
                         Z.abs z <= 9007199254740992 /\ string_of_Z z = id) \/
              ToString (ORG_ID o) = id)) ->
  ORG_FILE (snd (updateOrgConfig req st)) = ORG_FILE st
  /\ (List.length (entriesFor id (ORG_FILE st)) = 1%nat ->
      List.length (entriesFor id (ORG_FILE (snd (updateOrgConfig req st)))) = 1%nat).
Proof.
  intros Hid [o [Hin Ho]].
  assert (Hsame : ORG_FILE (snd (updateOrgConfig req st)) = ORG_FILE st).
  { destruct (present (orgId req)) eqn:Hp;
      [|rewrite updateOrgConfig_rejected; [reflexivity|now left]].
    destruct (truthy (config req)) eqn:Ht;
      [|rewrite updateOrgConfig_rejected; [reflexivity|now right]].
    destruct (config req) as [raw|] eqn:Hraw; [|discriminate].
    destruct (decode raw) as [c|] eqn:Hdec.
    - assert (Hne : id <> "").
      { rewrite Hid in Hp. simpl in Hp. intros ->. discriminate. }
      rewrite (updateOrgConfig_run req st id raw c Hid Hne Hraw Ht Hdec).
      simpl.
      destruct (find_present (fun o => (ToString (ORG_ID o) =? id)%string)
                  (ORG_FILE st)) as [o' Ho'].
      { exists o. split; [exact Hin|]. apply String.eqb_eq.
        destruct Ho as [E|[[z [E [Hz <-]]]|E]]; [now rewrite E| |exact E].
        rewrite E. simpl. now apply NumberToString_small. }
      now rewrite Ho'.
    - unfold updateOrgConfig. rewrite Hid, Hraw, Ht, Hdec.
      rewrite Hid in Hp. rewrite Hp. reflexivity. }
  split; [exact Hsame|]. now rewrite Hsame.
Qed.

(** On the first 'updateOrgConfig' for an [orgId] that has no entry in
    the configuration map and does not name a member of
    [Object.prototype], with an incoming document that does not carry
    the key [isDefault], the merged document, returned and stored under
    [orgId], has [isDefault: true] from the hardcoded default.  The
    stored document is then one of the values the resolver accepts as
    fallback: an identifier of the same kind with no entry is served a
    document of the map whose [isDefault] is [true] and no longer the
    hardcoded default, and it is served this very document when no value
    of the map was a default before. *)
Theorem first_write_stores_a_default
  (req : body) (st : store) (id : string) (raw c : json) :
  orgId req = Some id -> id <> "" ->
  config req = Some raw -> truthy (Some raw) = true -> decode raw = Some c ->
  lookup (CONFIG_FILE st) id = None -> inherited id = false ->
  lookup (entries (Some c)) "isDefault" = None ->
  let merged := spread2 (Some (JObj DEFAULT_CONFIG)) (Some c) in
  let configs' := CONFIG_FILE (snd (updateOrgConfig req st)) in
  fst (updateOrgConfig req st) =
    success (JObj merged) "Org config updated successfully"
  /\ lookup merged "isDefault" = Some (JBool true)
  /\ lookup configs' id = Some (JObj merged)
  /\ In (JObj merged) (Object_values configs')
  /\ (forall other, lookup configs' other = None -> inherited other = false ->
        exists d, resolve configs' other = Json d /\
                  In d (Object_values configs') /\
                  property d "isDefault" = Some (JBool true))
  /\ (forall other, lookup configs' other = None -> inherited other = false ->
        (forall d, In d (Object_values (CONFIG_FILE st)) ->
                   property d "isDefault" <> Some (JBool true)) ->
        resolve configs' other = Json (JObj merged)).
Proof.
  intros Hid Hne Hraw Ht Hdec Hnone Hk Hkey merged configs'.
  subst configs'.
  rewrite (updateOrgConfig_run req st id raw c Hid Hne Hraw Ht Hdec).
  rewrite (mergedConfig_unseen _ _ _ Hnone Hk). simpl. fold merged.
  assert (Hflag : lookup merged "isDefault" = Some (JBool true)).
  { unfold merged. now rewrite lookup_spread2_objects. }
  assert (Hdef : isDefault (JObj merged) = true).
  { apply isDefault_spec. exact Hflag. }
  assert (Hstored : lookup (put id (JObj merged) (CONFIG_FILE st)) id
                    = Some (JObj merged)).
  { apply lookup_put_same. left. now apply inherited_not_proto. }
  assert (Hin : In (JObj merged)
                  (Object_values (put id (JObj merged) (CONFIG_FILE st)))).
  { apply In_Object_values. now exists id. }
  assert (Hfound : exists d,
            find isDefault (Object_values (put id (JObj merged) (CONFIG_FILE st)))
            = Some d).
  { destruct (find isDefault _) as [d|] eqn:E; [now exists d|].
    rewrite (find_none _ _ E _ Hin) in Hdef. discriminate. }
  destruct Hfound as [d Hd].
  repeat (split; [assumption || reflexivity|]).
  split.
  - intros other Hother Hko. rewrite (resolve_absent _ _ Hother Hko).
    unfold fallback. rewrite Hd. exists d. split; [reflexivity|].
    apply find_some in Hd as [Hd1 Hd2]. split; [exact Hd1|].
    now apply isDefault_spec.
  - intros other Hother Hko Hold. rewrite (resolve_absent _ _ Hother Hko).
    unfold fallback. rewrite Hd. f_equal.
    apply find_some in Hd as [Hd1 Hd2].
    apply In_Object_values in Hd1 as [k Hkd].
    destruct (String.eqb_spec id k) as [->|Hik]; [congruence|].
    rewrite (lookup_put_other _ _ _ _ Hik) in Hkd.
    exfalso. apply (Hold d).
    + apply In_Object_values. now exists k.
    + now apply isDefault_spec.
Qed.

(** ** 'createOrg' *)

Lemma same_name_spec (v : option json) (name : string) :
  same_name v name = true <-> v = Some (JStr name).
Proof.
  destruct v as [[| | |s| |]|]; simpl; split; try discriminate.
  - intros H. apply String.eqb_eq in H. now subst.
  - intros [= ->]. apply String.eqb_refl.
Qed.

(** C7.  'createOrg' with a name that is exactly the [ORG_NAME] of a
    record of the organization list answers 409 'OrgName already exists'
    and leaves the list as it was; with no name or the empty name it
    answers 400 'Missing orgName' and leaves the list as it was; and it
    does not answer 409 when no record has exactly that name. *)
Theorem C7_createOrg_rejects_taken_name (req : body) (st : store) :
  (forall name, orgName req = Some name -> name <> "" ->
     (exists o, In o (ORG_FILE st) /\ ORG_NAME o = Some (JStr name)) ->
     createOrg req st = (failure 409 "OrgName already exists", st))
  /\ (orgName req = None \/ orgName req = Some "" ->
      createOrg req st = (failure 400 "Missing orgName", st))
  /\ (forall name, orgName req = Some name ->
      (forall o, In o (ORG_FILE st) -> ORG_NAME o <> Some (JStr name)) ->
      forall message, fst (createOrg req st) <> failure 409 message).
Proof.
  split; [|split].
  - intros name Hname Hne [o [Hin Ho]]. unfold createOrg. rewrite Hname.
    destruct (String.eqb_spec name ""); [contradiction|].
    unfold bind, readOrgs, ret.
    assert (E : existsb (fun o => same_name (ORG_NAME o) name) (ORG_FILE st)
                = true).
    { apply existsb_exists. exists o. split; [exact Hin|].
      now apply same_name_spec. }
    now rewrite E.
  - unfold createOrg. intros [H|H]; rewrite H; reflexivity.
  - intros name Hname Hfree message. unfold createOrg. rewrite Hname.
    destruct (String.eqb_spec name ""); [discriminate|].
    unfold bind, readOrgs, writeOrgs, ret.
    assert (E : existsb (fun o => same_name (ORG_NAME o) name) (ORG_FILE st)
                = false).
    { destruct (existsb _ (ORG_FILE st)) eqn:E; [|reflexivity].
      apply existsb_exists in E as [o [Hin Ho]].
      apply same_name_spec in Ho. now elim (Hfree o Hin). }
    rewrite E. unfold generateOrgId.
    destruct (MAX_ORG_ID <? candidate (ORG_FILE st)); simpl; discriminate.
Qed.

(** ** Further properties of the allocator and of 'createOrg' *)

Lemma In_numericIds (orgs : list org) (z : Z) :
  In z (numericIds orgs) <-> exists o, In o orgs /\ ToNumber (ORG_ID o) = Fin z.
Proof.
  unfold numericIds. rewrite in_flat_map. split.
  - intros [o [Hin Hz]]. exists o. split; [exact Hin|].
    destruct (ToNumber (ORG_ID o)); simpl in Hz; try contradiction.
    destruct Hz as [->|[]]. reflexivity.
  - intros [o [Hin Hz]]. exists o. split; [exact Hin|].
    rewrite Hz. now left.
Qed.

Lemma In_orgNames (orgs : list org) (s : string) :
  In s (orgNames orgs) <-> exists o, In o orgs /\ ORG_NAME o = Some (JStr s).
Proof.
  unfold orgNames. rewrite in_flat_map. split.
  - intros [o [Hin Hs]]. exists o. split; [exact Hin|].
    destruct (ORG_NAME o) as [[| | |s'| |]|]; simpl in Hs; try contradiction.
    destruct Hs as [->|[]]. reflexivity.
  - intros [o [Hin Hs]]. exists o. split; [exact Hin|].
    rewrite Hs. now left.
Qed.

Lemma observed_app (l1 l2 : list org) :
  observed (l1 ++ l2) = observed l1 ++ observed l2.
Proof. unfold observed. apply flat_map_app. Qed.

Lemma max_fold_app (l1 l2 : list Z) (a : Z) :
  fold_right Z.max a (l1 ++ l2) =
  Z.max (fold_right Z.max a l1) (fold_right Z.max a l2).
Proof.
  induction l1 as [|x r IH]; simpl.
  - destruct (max_fold_bounds l2 a) as [H _]. lia.
  - rewrite IH. lia.
Qed.

Lemma max_fold_perm (l1 l2 : list Z) (a : Z) :
  Permutation l1 l2 -> fold_right Z.max a l1 = fold_right Z.max a l2.
Proof.
  induction 1 as [|x l l' _ IH|x y l|l l' l'' _ IH1 _ IH2]; simpl.
  - reflexivity.
  - now rewrite IH.
  - lia.
  - now rewrite IH1.
Qed.

Lemma observed_perm (l1 l2 : list org) :
  Permutation l1 l2 -> Permutation (observed l1) (observed l2).
Proof.
  induction 1 as [|x l l' _ IH|x y l|l l' l'' _ IH1 _ IH2]; simpl.
  - reflexivity.
  - now apply Permutation_app_head.
  - rewrite !app_assoc. apply Permutation_app_tail, Permutation_app_comm.
  - now rewrite IH1.
Qed.

Lemma observed_skip (l1 l2 : list org) (o : org) :
  inBand o = None -> observed (l1 ++ o :: l2) = observed (l1 ++ l2).
Proof.
  intros H. rewrite !observed_app. simpl. now rewrite H.
Qed.

(** What 'createOrg' does to a request that passes its two checks. *)
Lemma createOrg_run (req : body) (st : store) (name : string) :
  orgName req = Some name -> name <> "" ->
  (forall o, In o (ORG_FILE st) -> ORG_NAME o <> Some (JStr name)) ->
  createOrg req st =
  match generateOrgId (ORG_FILE st) with
  | Throw message => (failure 500 message, st)
  | Return newId =>
      (success (org_json {| ORG_ID := Some (JNum newId);
                            ORG_NAME := Some (JStr name) |})
               "Org created successfully",
       {| CONFIG_FILE := CONFIG_FILE st;
          ORG_FILE := ORG_FILE st ++ [{| ORG_ID := Some (JNum newId);
                                         ORG_NAME := Some (JStr name) |}] |})
  end.
Proof.
  intros Hname Hne Hfree. unfold createOrg. rewrite Hname.
  destruct (String.eqb_spec name ""); [contradiction|].
  unfold bind, readOrgs, writeOrgs, ret.
  assert (E : existsb (fun o => same_name (ORG_NAME o) name) (ORG_FILE st)
              = false).
  { destruct (existsb _ (ORG_FILE st)) eqn:E; [|reflexivity].
    apply existsb_exists in E as [o [Hin Ho]].
    apply same_name_spec in Ho. now elim (Hfree o Hin). }
  rewrite E. destruct (generateOrgId (ORG_FILE st)); reflexivity.
Qed.

(** Every run of 'createOrg' either leaves the store as it was and
    answers with a failure, or appends one record under a free name. *)
Lemma createOrg_outcome (req : body) (st : store) :
  (exists status message, createOrg req st = (failure status message, st))
  \/ (exists name newId,
        orgName req = Some name /\ name <> "" /\
        (forall o, In o (ORG_FILE st) -> ORG_NAME o <> Some (JStr name)) /\
        generateOrgId (ORG_FILE st) = Return newId /\
        createOrg req st =
        (success (org_json {| ORG_ID := Some (JNum newId);
                              ORG_NAME := Some (JStr name) |})
                 "Org created successfully",
         {| CONFIG_FILE := CONFIG_FILE st;
            ORG_FILE := ORG_FILE st ++ [{| ORG_ID := Some (JNum newId);
                                           ORG_NAME := Some (JStr name) |}] |})).
Proof.
  destruct (orgName req) as [name|] eqn:Hname;
    [|left; do 2 eexists; unfold createOrg; rewrite Hname; reflexivity].
  destruct (String.eqb_spec name "") as [->|Hne];
    [left; do 2 eexists; unfold createOrg; rewrite Hname; reflexivity|].
  destruct (existsb (fun o => same_name (ORG_NAME o) name) (ORG_FILE st)) eqn:E.
  - left. do 2 eexists. unfold createOrg. rewrite Hname.
    destruct (String.eqb_spec name ""); [contradiction|].
    unfold bind, readOrgs, ret. now rewrite E.
  - assert (Hfree : forall o, In o (ORG_FILE st) ->
                              ORG_NAME o <> Some (JStr name)).
    { intros o Hin Ho. apply same_name_spec in Ho.
      assert (existsb (fun o => same_name (ORG_NAME o) name) (ORG_FILE st) = true)
        by (apply existsb_exists; now exists o).
      congruence. }
    rewrite (createOrg_run req st name Hname Hne Hfree).
    destruct (generateOrgId (ORG_FILE st)) as [newId|message] eqn:G.
    + right. exists name, newId. repeat split; assumption || reflexivity.
    + left. now do 2 eexists.
Qed.

Lemma returned_id_is_new (orgs : list org) (id : Z) :
  generateOrgId orgs = Return id ->
  MIN_ORG_ID <= id <= MAX_ORG_ID /\
  forall o, In o orgs -> ToNumber (ORG_ID o) <> Fin id.
Proof.
  rewrite generateOrgId_spec.
  destruct (Z.ltb_spec MAX_ORG_ID (spec_candidate orgs)) as [Hgt|Hle];
    [discriminate|].
  intros [= <-]. pose proof (spec_candidate_range orgs) as Hr.
  split; [lia|]. intros o Hin Hnum.
  pose proof (spec_candidate_above orgs o _ Hin Hnum). lia.
Qed.

(** A 'createOrg' request with a non-empty name that no record carries,
    on a list whose band is not exhausted, is answered with the new
    record and appends exactly that record; the configuration file is not
    written.  The identifier of the record is max(in-range ids,
    MIN_ORG_ID - 1) + 1, lies in the band, and is the number no record of
    the list reads as. *)
Theorem createOrg_appends_fresh_record (req : body) (st : store) (name : string) :
  orgName req = Some name -> name <> "" ->
  (forall o, In o (ORG_FILE st) -> ORG_NAME o <> Some (JStr name)) ->
  spec_candidate (ORG_FILE st) <= MAX_ORG_ID ->
  createOrg req st =
    (success (JObj [("ORG_ID", JNum (spec_candidate (ORG_FILE st)));
                    ("ORG_NAME", JStr name)])
             "Org created successfully",
     {| CONFIG_FILE := CONFIG_FILE st;
        ORG_FILE := ORG_FILE st ++
                    [{| ORG_ID := Some (JNum (spec_candidate (ORG_FILE st)));
                        ORG_NAME := Some (JStr name) |}] |})
  /\ MIN_ORG_ID <= spec_candidate (ORG_FILE st) <= MAX_ORG_ID
  /\ (forall o, In o (ORG_FILE st) ->
        ToNumber (ORG_ID o) <> Fin (spec_candidate (ORG_FILE st))).
Proof.
  intros Hname Hne Hfree Hroom.
  assert (G : generateOrgId (ORG_FILE st) = Return (spec_candidate (ORG_FILE st))).
  { rewrite generateOrgId_spec.
    destruct (Z.ltb_spec MAX_ORG_ID (spec_candidate (ORG_FILE st))); [lia|].
    reflexivity. }
  split.
  - now rewrite (createOrg_run req st name Hname Hne Hfree), G.
  - now apply returned_id_is_new.
Qed.

(** 'createOrg' keeps the names of the list pairwise distinct, and keeps
    pairwise distinct the numbers its identifiers read as, whatever the
    request and whatever the answer. *)
Theorem createOrg_keeps_names_and_ids_distinct (req : body) (st : store) :
  (NoDup (orgNames (ORG_FILE st)) ->
   NoDup (orgNames (ORG_FILE (snd (createOrg req st)))))
  /\ (NoDup (numericIds (ORG_FILE st)) ->
      NoDup (numericIds (ORG_FILE (snd (createOrg req st))))).
Proof.
  destruct (createOrg_outcome req st)
    as [[status [message E]]|[name [newId [_ [_ [Hfree [G E]]]]]]];
    rewrite E; simpl; [now split|].
  split; intros Hnd.
  - unfold orgNames. rewrite flat_map_app. simpl.
    apply NoDup_app; [exact Hnd|repeat constructor; intros []|].
    intros s Hs [<-|[]]. apply In_orgNames in Hs as [o [Hin Ho]].
    now apply (Hfree o Hin).
  - unfold numericIds. rewrite flat_map_app. simpl.
    apply NoDup_app; [exact Hnd|repeat constructor; intros []|].
    intros z Hz [<-|[]]. apply In_numericIds in Hz as [o [Hin Ho]].
    destruct (returned_id_is_new _ _ G) as [_ Hnew]. now apply (Hnew o Hin).
Qed.

(** When some record of the list reads as MAX_ORG_ID, a 'createOrg'
    request with a non-empty free name is answered 500 'OrgId range
    exhausted' and nothing is written. *)
Theorem createOrg_exhausted_band (req : body) (st : store) (name : string) :
  orgName req = Some name -> name <> "" ->
  (forall o, In o (ORG_FILE st) -> ORG_NAME o <> Some (JStr name)) ->
  (exists o, In o (ORG_FILE st) /\ ToNumber (ORG_ID o) = Fin MAX_ORG_ID) ->
  createOrg req st = (failure 500 "OrgId range exhausted", st).
Proof.
  intros Hname Hne Hfree [o [Hin Hnum]].
  rewrite (createOrg_run req st name Hname Hne Hfree), generateOrgId_spec.
  assert (MAX_ORG_ID < spec_candidate (ORG_FILE st)).
  { apply (spec_candidate_above _ o); [exact Hin|exact Hnum|].
    unfold MIN_ORG_ID, MAX_ORG_ID. lia. }
  destruct (Z.ltb_spec MAX_ORG_ID (spec_candidate (ORG_FILE st))); [|lia].
  reflexivity.
Qed.


(** The allocator does not depend on the order of the list. *)
Theorem generateOrgId_order_independent (orgs orgs' : list org) :
  Permutation orgs orgs' -> generateOrgId orgs = generateOrgId orgs'.
Proof.
  intros Hp. rewrite !generateOrgId_spec. unfold spec_candidate.
  now rewrite (max_fold_perm _ _ _ (observed_perm _ _ Hp)).
Qed.

(** A record without [ORG_ID], or whose [ORG_ID] is [null], a boolean, an
    object without an own [toString] property or a number outside the
    band, has no effect on the allocator, wherever it stands in the list
    and whatever the conversion of strings does. *)
Theorem generateOrgId_ignores_foreign_record (l1 l2 : list org) (o : org) :
  ORG_ID o = None \/ ORG_ID o = Some JNull \/
  (exists b, ORG_ID o = Some (JBool b)) \/
  (exists l, ORG_ID o = Some (JObj l) /\ lookup l "toString" = None) \/
  (exists z, ORG_ID o = Some (JNum z) /\ (z < MIN_ORG_ID \/ MAX_ORG_ID < z)) ->
  generateOrgId (l1 ++ o :: l2) = generateOrgId (l1 ++ l2).
Proof.
  intros H.
  assert (Ho : inBand o = None).
  { unfold inBand.
    destruct H as [E|[E|[[b E]|[[l [E _]]|[z [E Hz]]]]]]; rewrite E; simpl;
      try reflexivity.
    - now destruct b.
    - destruct (Z.leb_spec MIN_ORG_ID z), (Z.leb_spec z MAX_ORG_ID);
        simpl; try reflexivity. lia. }
  rewrite !generateOrgId_spec. unfold spec_candidate.
  now rewrite (observed_skip _ _ _ Ho).
Qed.

(** ** Further properties of the resolver and of 'updateOrgConfig' *)

Lemma lookup_app (l1 l2 : obj) (k : string) :
  lookup (l1 ++ l2) k =
  match lookup l1 k with Some v => Some v | None => lookup l2 k end.
Proof.
  induction l1 as [|[k0 v0] r IH]; simpl; [reflexivity|].
  now destruct (k0 =? k)%string.
Qed.

(** In a sequence of assignments the last one to a key decides. *)
Lemma lookup_assign_last (es o : obj) (k : string) :
  lookup (assign o es) k =
  match lookup (rev es) k with Some v => Some v | None => lookup o k end.
Proof.
  unfold assign. revert o.
  induction es as [|[k0 v0] r IH]; simpl; intros o; [reflexivity|].
  rewrite IH, lookup_app, lookup_set. simpl.
  destruct (lookup (rev r) k); [reflexivity|].
  now destruct (k0 =? k)%string.
Qed.

Lemma lookup_spread2_last (B : obj) (b : option json) (k : string) :
  lookup (spread2 (Some (JObj B)) b) k =
  match lookup (rev (entries b)) k with Some v => Some v | None => lookup B k end.
Proof.
  unfold spread2. rewrite lookup_assign_last.
  destruct (lookup (rev (entries b)) k); [reflexivity|].
  simpl. rewrite lookup_assign by apply NoDup_keys_own_entries.
  rewrite lookup_own_entries. now destruct (lookup B k).
Qed.

Lemma getOrgConfig_reads_only (req : body) (st : store) :
  snd (getOrgConfig req st) = st.
Proof.
  unfold getOrgConfig. destruct (orgId req) as [id|]; [|reflexivity].
  destruct (id =? "")%string; [reflexivity|].
  unfold bind, readOrgs, readConfigs, ret.
  now destruct (existsb _ (ORG_FILE st)).
Qed.

(** Every run of 'updateOrgConfig' answers 400 and leaves the store as it
    was, or passes the presence check and decodes. *)
Lemma updateOrgConfig_outcome (req : body) (st : store) :
  (exists message, updateOrgConfig req st = (failure 400 message, st))
  \/ (exists id raw c,
        orgId req = Some id /\ id <> "" /\ config req = Some raw /\
        truthy (Some raw) = true /\ decode raw = Some c).
Proof.
  destruct (present (orgId req)) eqn:Hp;
    [|left; eexists; apply updateOrgConfig_rejected; now left].
  destruct (truthy (config req)) eqn:Ht;
    [|left; eexists; apply updateOrgConfig_rejected; now right].
  destruct (orgId req) as [id|] eqn:Hid; [|discriminate].
  destruct (config req) as [raw|] eqn:Hraw; [|discriminate].
  destruct (decode raw) as [c|] eqn:Hdec.
  - right. exists id, raw, c. repeat split; try assumption.
    intros ->. discriminate.
  - left. eexists. unfold updateOrgConfig. rewrite Hid, Hraw, Hp, Ht, Hdec.
    reflexivity.
Qed.

Lemma autoOrg_prints (id : string) (name : option string) :
  StringToNumber id = NaN \/
  (exists z, StringToNumber id = Fin z /\ ToString (Some (JNum z)) = id) ->
  ToString (ORG_ID (autoOrg id name)) = id.
Proof.
  unfold autoOrg. intros [E|[z [E Hz]]]; rewrite E; [reflexivity|exact Hz].
Qed.

Lemma inherited_numeral (z : Z) : inherited (string_of_Z z) = false.
Proof.
  unfold string_of_Z, NilZero.string_of_int, NilZero.string_of_uint.
  destruct (Z.to_int z) as [d|d]; [|reflexivity].
  destruct d; reflexivity.
Qed.

Lemma string_of_Z_not_empty (z : Z) : string_of_Z z <> "".
Proof.
  unfold string_of_Z, NilZero.string_of_int, NilZero.string_of_uint.
  destruct (Z.to_int z) as [d|d]; [|discriminate].
  destruct d; discriminate.
Qed.

(** The store changes only when the answer is a success of 'createOrg'
    or of 'updateOrgConfig': a request that is answered with a failure,
    and every 'getAllOrg' and 'getOrgConfig' request, leaves both files
    as they were. *)
Theorem crawler_writes_only_on_success (req : body) (st : store) :
  snd (crawler req st) = st
  \/ ((exists details message, fst (crawler req st) = success details message)
      /\ (action req = Some "createOrg" \/ action req = Some "updateOrgConfig")).
Proof.
  unfold crawler. destruct (action req) as [a|]; [|now left].
  destruct (a =? "")%string; [now left|].
  destruct (a =? "getAllOrg")%string; [now left|].
  destruct (String.eqb_spec a "createOrg") as [->|_].
  { destruct (createOrg_outcome req st)
      as [[status [message E]]|[name [newId [_ [_ [_ [_ E]]]]]]]; rewrite E.
    - now left.
    - right. split; [now do 2 eexists|now left]. }
  destruct (String.eqb_spec a "getOrgConfig") as [->|_].
  { left. apply getOrgConfig_reads_only. }
  destruct (String.eqb_spec a "updateOrgConfig") as [->|_]; [|now left].
  destruct (updateOrgConfig_outcome req st)
    as [[message E]|[id [raw [c [Hid [Hne [Hraw [Ht Hdec]]]]]]]].
  - rewrite E. now left.
  - rewrite (updateOrgConfig_run req st id raw c Hid Hne Hraw Ht Hdec).
    right. split; [now do 2 eexists|now right].
Qed.

(** The resolver always yields a truthy value: one of the values of the
    configuration map, the hardcoded default document, or, for an
    [orgId] without entry that names a member of [Object.prototype],
    that member. *)
Theorem resolve_yields_a_document (configs : obj) (id : string) :
  truthyValue (Some (resolve configs id)) = true
  /\ ((exists d, resolve configs id = Json d /\
                 (In d (Object_values configs) \/ d = JObj DEFAULT_CONFIG))
      \/ (lookup configs id = None /\ inherited id = true /\
          resolve configs id = Member id)).
Proof.
  assert (Hf : truthyValue (Some (Json (fallback configs))) = true /\
               ((exists d, Json (fallback configs) = Json d /\
                           (In d (Object_values configs) \/
                            d = JObj DEFAULT_CONFIG))
                \/ (lookup configs id = None /\ inherited id = true /\
                    Json (fallback configs) = Member id))).
  { split; [apply fallback_truthy|]. left. eexists. split; [reflexivity|].
    unfold fallback.
    destruct (find isDefault (Object_values configs)) eqn:E; [|now right].
    left. now apply find_some in E as [E _]. }
  destruct (lookup configs id) as [c|] eqn:Hc.
  - destruct (truthy (Some c)) eqn:Ht.
    + rewrite (resolve_own _ _ _ Hc Ht). split; [exact Ht|].
      left. exists c. split; [reflexivity|]. left.
      apply In_Object_values. now exists id.
    + now rewrite (resolve_falsy _ _ _ Hc Ht).
  - destruct (inherited id) eqn:Hk.
    + rewrite (resolve_inherited _ _ Hc Hk). split; [reflexivity|].
      right. now repeat split.
    + now rewrite (resolve_absent _ _ Hc Hk).
Qed.

(** After an 'updateOrgConfig' that passed its checks, for an [orgId]
    other than [__proto__], 'getOrgConfig' for the same [orgId] answers
    with the very document the update answered with, provided a record
    of the list printed as [orgId] already, or [orgId] is not a number,
    or the number it reads as prints as [orgId]. *)
Theorem getOrgConfig_after_updateOrgConfig
  (req req' : body) (st : store) (id : string) (raw c : json) :
  orgId req = Some id -> id <> "" -> id <> "__proto__" ->
  config req = Some raw -> truthy (Some raw) = true -> decode raw = Some c ->
  (exists o, In o (ORG_FILE st) /\ ToString (ORG_ID o) = id) \/
  StringToNumber id = NaN \/
  (exists z, StringToNumber id = Fin z /\ ToString (Some (JNum z)) = id) ->
  orgId req' = Some id ->
  exists doc,
    fst (updateOrgConfig req st) = success doc "Org config updated successfully"
    /\ getOrgConfig req' (snd (updateOrgConfig req st)) =
       (success doc "Org config fetched successfully",
        snd (updateOrgConfig req st)).
Proof.
  intros Hid Hne Hproto Hraw Ht Hdec Hprints Hid'.
  rewrite (updateOrgConfig_run req st id raw c Hid Hne Hraw Ht Hdec).
  eexists. split; [reflexivity|]. cbn [snd].
  rewrite (getOrgConfig_run req' _ id Hid' Hne).
  - cbn [CONFIG_FILE]. rewrite (resolve_own _ id (JObj (mergedConfig (CONFIG_FILE st) id c))).
    + reflexivity.
    + apply lookup_put_same. now left.
    + reflexivity.
  - cbn [ORG_FILE]. destruct (find _ (ORG_FILE st)) as [o|] eqn:E.
    + apply find_some in E as [Hin Ho]. exists o. split; [exact Hin|].
      now apply String.eqb_eq.
    + exists (autoOrg id (orgName req)). split; [apply in_or_app; right; now left|].
      destruct Hprints as [[o [Hin Ho]]|Hauto].
      * apply (find_none _ _ E) in Hin. apply String.eqb_neq in Hin.
        contradiction.
      * exact (autoOrg_prints id (orgName req) Hauto).
Qed.

(** When [orgId] (other than [__proto__]) reads as a number that does
    not print as [orgId] (a numeral with leading zeros, say) and no
    record prints as [orgId], the update stores the configuration under
    [orgId] and appends a record that does not print as [orgId]:
    'getOrgConfig' for [orgId] then answers 500 'OrgId not found', and a
    second update appends the same record once more. *)
Theorem updateOrgConfig_unprintable_orgId
  (req req' : body) (st : store) (id : string) (raw c : json) (z : Z) :
  orgId req = Some id -> id <> "" -> id <> "__proto__" ->
  config req = Some raw -> truthy (Some raw) = true -> decode raw = Some c ->
  (forall o, In o (ORG_FILE st) -> ToString (ORG_ID o) <> id) ->
  StringToNumber id = Fin z -> ToString (Some (JNum z)) <> id ->
  orgId req' = Some id ->
  ORG_ID (autoOrg id (orgName req)) = Some (JNum z)
  /\ lookup (CONFIG_FILE (snd (updateOrgConfig req st))) id =
     Some (JObj (mergedConfig (CONFIG_FILE st) id c))
  /\ getOrgConfig req' (snd (updateOrgConfig req st)) =
     (failure 500 "OrgId not found", snd (updateOrgConfig req st))
  /\ ORG_FILE (snd (updateOrgConfig req (snd (updateOrgConfig req st)))) =
     ORG_FILE st ++ [autoOrg id (orgName req); autoOrg id (orgName req)].
Proof.
  intros Hid Hne Hproto Hraw Ht Hdec Hnone Hnum Hz Hid'.
  assert (Hauto : ORG_ID (autoOrg id (orgName req)) = Some (JNum z)).
  { unfold autoOrg. now rewrite Hnum. }
  assert (Hmiss : forall l, (forall o, In o l -> ToString (ORG_ID o) <> id) ->
            find (fun o => (ToString (ORG_ID o) =? id)%string) l = None).
  { intros l Hl. destruct (find _ l) as [o|] eqn:E; [|reflexivity].
    apply find_some in E as [Hin Ho]. apply String.eqb_eq in Ho.
    now elim (Hl o Hin). }
  assert (Hnone' : forall o, In o (ORG_FILE st ++ [autoOrg id (orgName req)]) ->
            ToString (ORG_ID o) <> id).
  { intros o Hin. apply in_app_or in Hin as [Hin|[<-|[]]]; [now apply Hnone|].
    rewrite Hauto. exact Hz. }
  split; [exact Hauto|].
  rewrite (updateOrgConfig_run req st id raw c Hid Hne Hraw Ht Hdec).
  rewrite (updateOrgConfig_run req _ id raw c Hid Hne Hraw Ht Hdec).
  cbn [snd CONFIG_FILE ORG_FILE].
  rewrite (Hmiss _ Hnone), (Hmiss _ Hnone'). split; [|split].
  - apply lookup_put_same. now left.
  - unfold getOrgConfig. rewrite Hid'.
    destruct (String.eqb_spec id ""); [contradiction|].
    unfold bind, readOrgs, readConfigs, ret. cbn [fst snd ORG_FILE].
    assert (E : existsb (fun o => (ToString (ORG_ID o) =? id)%string)
                  (ORG_FILE st ++ [autoOrg id (orgName req)]) = false).
    { destruct (existsb _ _) eqn:E; [|reflexivity].
      apply existsb_exists in E as [o [Hin Ho]]. apply String.eqb_eq in Ho.
      now elim (Hnone' o Hin). }
    now rewrite E.
  - now rewrite <- app_assoc.
Qed.

Lemma lookup_mergedConfig (configs : obj) (id : string) (c : json) (k : string) :
  lookup (mergedConfig configs id c) k =
  match lookup (rev (entries (Some c))) k with
  | Some v => Some v
  | None =>
      lookup (assign [] (entries (spreadable
                (if truthyValue (get configs id) then get configs id
                 else Some (Json (JObj DEFAULT_CONFIG)))))) k
  end.
Proof. unfold mergedConfig, spread2. apply lookup_assign_last. Qed.

(** Two successive 'updateOrgConfig' requests with the same [orgId] and
    the same configuration are answered with documents that agree on
    every key: the update is idempotent. *)
Theorem updateOrgConfig_idempotent
  (req : body) (st : store) (id : string) (raw c : json) :
  orgId req = Some id -> id <> "" ->
  config req = Some raw -> truthy (Some raw) = true -> decode raw = Some c ->
  exists first second,
    fst (updateOrgConfig req st) =
      success (JObj first) "Org config updated successfully"
    /\ fst (updateOrgConfig req (snd (updateOrgConfig req st))) =
       success (JObj second) "Org config updated successfully"
    /\ forall k, lookup second k = lookup first k.
Proof.
  intros Hid Hne Hraw Ht Hdec.
  rewrite (updateOrgConfig_run req st id raw c Hid Hne Hraw Ht Hdec).
  rewrite (updateOrgConfig_run req _ id raw c Hid Hne Hraw Ht Hdec).
  do 2 eexists. split; [reflexivity|]. split; [reflexivity|].
  intros k. cbn [snd CONFIG_FILE].
  set (first := mergedConfig (CONFIG_FILE st) id c).
  destruct (lookup (put id (JObj first) (CONFIG_FILE st)) id) as [j|] eqn:Hput.
  - assert (Hj : j = JObj first \/ put id (JObj first) (CONFIG_FILE st) = CONFIG_FILE st).
    { unfold put in *. destruct (lookup (CONFIG_FILE st) id) eqn:Hl.
      - left. rewrite lookup_set, String.eqb_refl in Hput. congruence.
      - destruct (id =? "__proto__")%string; [now right|].
        left. rewrite lookup_set, String.eqb_refl in Hput. congruence. }
    destruct Hj as [->|E]; [|now rewrite E].
    rewrite (mergedConfig_stored _ _ _ _ Hput), lookup_spread2_last.
    destruct (lookup (rev (entries (Some c))) k) as [v|] eqn:E; [|reflexivity].
    unfold first. now rewrite lookup_mergedConfig, E.
  - assert (E : put id (JObj first) (CONFIG_FILE st) = CONFIG_FILE st).
    { unfold put in *. destruct (lookup (CONFIG_FILE st) id) eqn:Hl.
      - rewrite lookup_set, String.eqb_refl in Hput. discriminate.
      - destruct (id =? "__proto__")%string; [reflexivity|].
        rewrite lookup_set, String.eqb_refl in Hput. discriminate. }
    now rewrite E.
Qed.

(** 'updateOrgConfig' touches no entry of the configuration map other
    than the one of its [orgId], and it keeps the records of the
    organization list in place, appending at most one. *)
Theorem updateOrgConfig_frame (req : body) (st : store) :
  (forall other, orgId req <> Some other ->
     lookup (CONFIG_FILE (snd (updateOrgConfig req st))) other =
     lookup (CONFIG_FILE st) other)
  /\ (exists tail,
        ORG_FILE (snd (updateOrgConfig req st)) = ORG_FILE st ++ tail
        /\ (List.length tail <= 1)%nat).
Proof.
  destruct (updateOrgConfig_outcome req st)
    as [[message E]|[id [raw [c [Hid [Hne [Hraw [Ht Hdec]]]]]]]].
  - rewrite E. simpl. split; [reflexivity|].
    exists []. split; [now rewrite app_nil_r|simpl; lia].
  - rewrite (updateOrgConfig_run req st id raw c Hid Hne Hraw Ht Hdec).
    cbn [snd CONFIG_FILE ORG_FILE]. split.
    + intros other Hother. apply lookup_put_other. intros <-. now elim Hother.
    + destruct (find _ (ORG_FILE st)).
      * exists []. split; [now rewrite app_nil_r|simpl; lia].
      * eexists. split; [reflexivity|simpl; lia].
Qed.

(** When the configuration map already holds a document for [orgId], that
    document is the base of the merge and the hardcoded default plays no
    part: on a key the incoming document does not carry the merged
    document is as the stored one, so a default field the stored
    document lacks stays absent. *)
Theorem updateOrgConfig_merges_into_stored_document
  (req : body) (st : store) (id : string) (raw c : json) (B : obj) :
  orgId req = Some id -> id <> "" ->
  config req = Some raw -> truthy (Some raw) = true -> decode raw = Some c ->
  lookup (CONFIG_FILE st) id = Some (JObj B) ->
  fst (updateOrgConfig req st) =
    success (JObj (spread2 (Some (JObj B)) (Some c)))
            "Org config updated successfully"
  /\ lookup (CONFIG_FILE (snd (updateOrgConfig req st))) id =
     Some (JObj (spread2 (Some (JObj B)) (Some c)))
  /\ (forall k, lookup (entries (Some c)) k = None ->
        lookup (spread2 (Some (JObj B)) (Some c)) k = lookup B k).
Proof.
  intros Hid Hne Hraw Ht Hdec HB.
  rewrite (updateOrgConfig_run req st id raw c Hid Hne Hraw Ht Hdec).
  rewrite (mergedConfig_stored _ _ _ _ HB). cbn [fst snd CONFIG_FILE].
  split; [reflexivity|]. split.
  - apply lookup_put_same. right. now rewrite HB.
  - intros k Hk. now apply lookup_spread2_objects.
Qed.

(** For an [orgId] that no record prints as, 'updateOrgConfig' appends
    one record without checking its name or its identifier: the name is
    the given one even when a record already carries it (the names of
    the list are then no longer distinct), or 'Org-' followed by [orgId]
    when none is given; the identifier is the number [orgId] reads as,
    inside the band or not, or [orgId] itself when it is not a number. *)
Theorem updateOrgConfig_auto_creates_unchecked
  (req : body) (st : store) (id : string) (raw c : json) :
  orgId req = Some id -> id <> "" ->
  config req = Some raw -> truthy (Some raw) = true -> decode raw = Some c ->
  (forall o, In o (ORG_FILE st) -> ToString (ORG_ID o) <> id) ->
  ORG_FILE (snd (updateOrgConfig req st)) =
    ORG_FILE st ++ [autoOrg id (orgName req)]
  /\ (forall n, orgName req = Some n -> n <> "" ->
        ORG_NAME (autoOrg id (orgName req)) = Some (JStr n) /\
        (In n (orgNames (ORG_FILE st)) ->
         ~ NoDup (orgNames (ORG_FILE (snd (updateOrgConfig req st))))))
  /\ (orgName req = None \/ orgName req = Some "" ->
        ORG_NAME (autoOrg id (orgName req)) = Some (JStr ("Org-" ++ id)))
  /\ (forall z, StringToNumber id = Fin z ->
        ORG_ID (autoOrg id (orgName req)) = Some (JNum z))
  /\ (StringToNumber id = NaN ->
        ORG_ID (autoOrg id (orgName req)) = Some (JStr id)).
Proof.
  intros Hid Hne Hraw Ht Hdec Hnone.
  assert (Hmiss : find (fun o => (ToString (ORG_ID o) =? id)%string)
                    (ORG_FILE st) = None).
  { destruct (find _ (ORG_FILE st)) as [o|] eqn:E; [|reflexivity].
    apply find_some in E as [Hin Ho]. apply String.eqb_eq in Ho.
    now elim (Hnone o Hin). }
  assert (Hfile : ORG_FILE (snd (updateOrgConfig req st)) =
                  ORG_FILE st ++ [autoOrg id (orgName req)]).
  { rewrite (updateOrgConfig_run req st id raw c Hid Hne Hraw Ht Hdec).
    simpl. now rewrite Hmiss. }
  split; [exact Hfile|]. split; [|split; [|split]].
  - intros n Hn Hnn.
    assert (Hname : ORG_NAME (autoOrg id (orgName req)) = Some (JStr n)).
    { unfold autoOrg. rewrite Hn. simpl.
      destruct (String.eqb_spec n ""); [contradiction|reflexivity]. }
    split; [exact Hname|]. intros Hin Hnd. rewrite Hfile in Hnd.
    unfold orgNames in Hnd. rewrite flat_map_app in Hnd.
    cbn [flat_map] in Hnd. rewrite Hname in Hnd. cbn [app] in Hnd.
    apply NoDup_remove_2 in Hnd. apply Hnd. now rewrite app_nil_r.
  - unfold autoOrg. intros [E|E]; rewrite E; reflexivity.
  - intros z E. unfold autoOrg. now rewrite E.
  - intros E. unfold autoOrg. now rewrite E.
Qed.

(** A configuration that decodes to [null], a boolean or a number
    carries no property: the update succeeds all the same, and the
    document it answers with has, on every key, the value of the stored
    document; when the map has no entry for [orgId] it has the value of
    the hardcoded default, or no property at all if [orgId] names a
    member of [Object.prototype].  The document is stored under [orgId]
    unless [orgId] is [__proto__] and the map has no own entry of that
    name. *)
Theorem updateOrgConfig_with_empty_payload
  (req : body) (st : store) (id : string) (raw c : json) :
  orgId req = Some id -> id <> "" ->
  config req = Some raw -> truthy (Some raw) = true -> decode raw = Some c ->
  c = JNull \/ (exists b, c = JBool b) \/ (exists z, c = JNum z) ->
  exists doc,
    fst (updateOrgConfig req st) =
      success (JObj doc) "Org config updated successfully"
    /\ (id <> "__proto__" \/ lookup (CONFIG_FILE st) id <> None ->
        lookup (CONFIG_FILE (snd (updateOrgConfig req st))) id = Some (JObj doc))
    /\ (lookup (CONFIG_FILE st) id = None -> inherited id = false ->
        forall k, lookup doc k = lookup DEFAULT_CONFIG k)
    /\ (lookup (CONFIG_FILE st) id = None -> inherited id = true ->
        forall k, lookup doc k = None)
    /\ (forall B, lookup (CONFIG_FILE st) id = Some (JObj B) ->
        forall k, lookup doc k = lookup B k).
Proof.
  intros Hid Hne Hraw Ht Hdec Hc.
  assert (He : entries (Some c) = []).
  { destruct Hc as [->|[[b ->]|[z ->]]]; reflexivity. }
  rewrite (updateOrgConfig_run req st id raw c Hid Hne Hraw Ht Hdec).
  eexists. split; [reflexivity|]. cbn [snd CONFIG_FILE]. split; [|split; [|split]].
  - apply lookup_put_same.
  - intros Hnone Hk k. rewrite (mergedConfig_unseen _ _ _ Hnone Hk).
    apply lookup_spread2_objects. now rewrite He.
  - intros Hnone Hk k. rewrite (mergedConfig_inherited _ _ _ Hnone Hk).
    unfold spread2. now rewrite He.
  - intros B HB k. rewrite (mergedConfig_stored _ _ _ _ HB).
    apply lookup_spread2_objects. now rewrite He.
Qed.

(** An organization that 'createOrg' has just created passes the
    existence check of 'getOrgConfig' under the decimal numeral of its
    identifier, and is served the resolution of the configuration map,
    which 'createOrg' has not touched: the truthy value stored under
    the numeral, else the first stored default, else the hardcoded
    default. *)
Theorem getOrgConfig_after_createOrg
  (req req' : body) (st : store) (name : string) :
  orgName req = Some name -> name <> "" ->
  (forall o, In o (ORG_FILE st) -> ORG_NAME o <> Some (JStr name)) ->
  spec_candidate (ORG_FILE st) <= MAX_ORG_ID ->
  orgId req' = Some (string_of_Z (spec_candidate (ORG_FILE st))) ->
  getOrgConfig req' (snd (createOrg req st)) =
  (success
     match lookup (CONFIG_FILE st) (string_of_Z (spec_candidate (ORG_FILE st))) with
     | Some stored =>
         if truthy (Some stored) then stored else fallback (CONFIG_FILE st)
     | None => fallback (CONFIG_FILE st)
     end
     "Org config fetched successfully",
   snd (createOrg req st)).
Proof.
  intros Hname Hne Hfree Hroom Hid'.
  assert (G : generateOrgId (ORG_FILE st) = Return (spec_candidate (ORG_FILE st))).
  { rewrite generateOrgId_spec.
    destruct (Z.ltb_spec MAX_ORG_ID (spec_candidate (ORG_FILE st))); [lia|].
    reflexivity. }
  rewrite (createOrg_run req st name Hname Hne Hfree), G. cbn [snd].
  rewrite (getOrgConfig_run req' _ _ Hid' (string_of_Z_not_empty _)).
  - cbn [CONFIG_FILE]. f_equal.
    set (id := string_of_Z (spec_candidate (ORG_FILE st))).
    destruct (lookup (CONFIG_FILE st) id) as [stored|] eqn:Hl.
    + destruct (truthy (Some stored)) eqn:Ht.
      * now rewrite (resolve_own _ _ _ Hl Ht).
      * now rewrite (resolve_falsy _ _ _ Hl Ht).
    + now rewrite (resolve_absent _ _ Hl (inherited_numeral _)).
  - cbn [ORG_FILE]. eexists. split; [apply in_or_app; right; now left|].
    simpl. apply NumberToString_small.
    pose proof (spec_candidate_range (ORG_FILE st)) as Hr.
    unfold MIN_ORG_ID, MAX_ORG_ID in *. lia.
Qed.

(** ** The organization list across requests *)

Lemma spec_candidate_app (l tail : list org) :
  spec_candidate l <= spec_candidate (l ++ tail).
Proof.
  unfold spec_candidate. rewrite observed_app, max_fold_app. lia.
Qed.

(** No request removes or alters a record of the organization list: the
    list after a request is the list before it followed by at most one
    record, and the candidate of the allocator never decreases. *)
Theorem crawler_only_appends_records (req : body) (st : store) :
  (exists tail,
     ORG_FILE (snd (crawler req st)) = ORG_FILE st ++ tail
     /\ (List.length tail <= 1)%nat)
  /\ spec_candidate (ORG_FILE st) <= spec_candidate (ORG_FILE (snd (crawler req st))).
Proof.
  assert (H : exists tail,
            ORG_FILE (snd (crawler req st)) = ORG_FILE st ++ tail
            /\ (List.length tail <= 1)%nat).
  { assert (Hsame : exists tail, ORG_FILE st = ORG_FILE st ++ tail
                                 /\ (List.length tail <= 1)%nat).
    { exists []. split; [now rewrite app_nil_r|simpl; lia]. }
    unfold crawler. destruct (action req) as [a|]; [|exact Hsame].
    destruct (a =? "")%string; [exact Hsame|].
    destruct (a =? "getAllOrg")%string; [exact Hsame|].
    destruct (a =? "createOrg")%string.
    { destruct (createOrg_outcome req st)
        as [[status [message E]]|[name [newId [_ [_ [_ [_ E]]]]]]]; rewrite E.
      - exact Hsame.
      - eexists. split; [reflexivity|simpl; lia]. }
    destruct (a =? "getOrgConfig")%string.
    { now rewrite getOrgConfig_reads_only. }
    destruct (a =? "updateOrgConfig")%string; [|exact Hsame].
    destruct (updateOrgConfig_outcome req st)
      as [[message E]|[id [raw [c [Hid [Hne [Hraw [Ht Hdec]]]]]]]].
    - rewrite E. exact Hsame.
    - rewrite (updateOrgConfig_run req st id raw c Hid Hne Hraw Ht Hdec).
      simpl. destruct (find _ (ORG_FILE st)); [exact Hsame|].
      eexists. split; [reflexivity|simpl; lia]. }
  split; [exact H|]. destruct H as [tail [E _]]. rewrite E.
  apply spec_candidate_app.
Qed.

(** An identifier of the band that 'updateOrgConfig' gave to a record it
    created is below the candidate of the allocator afterwards:
    'createOrg' does not hand it out again. *)
Theorem allocator_skips_auto_created_id
  (req : body) (st : store) (id : string) (raw c : json) (z : Z) :
  orgId req = Some id -> id <> "" ->
  config req = Some raw -> truthy (Some raw) = true -> decode raw = Some c ->
  (forall o, In o (ORG_FILE st) -> ToString (ORG_ID o) <> id) ->
  StringToNumber id = Fin z -> MIN_ORG_ID <= z <= MAX_ORG_ID ->
  z < spec_candidate (ORG_FILE (snd (updateOrgConfig req st)))
  /\ forall newId,
       generateOrgId (ORG_FILE (snd (updateOrgConfig req st))) = Return newId ->
       z < newId.
Proof.
  intros Hid Hne Hraw Ht Hdec Hnone Hnum Hband.
  assert (Hmiss : find (fun o => (ToString (ORG_ID o) =? id)%string)
                    (ORG_FILE st) = None).
  { destruct (find _ (ORG_FILE st)) as [o|] eqn:E; [|reflexivity].
    apply find_some in E as [Hin Ho]. apply String.eqb_eq in Ho.
    now elim (Hnone o Hin). }
  rewrite (updateOrgConfig_run req st id raw c Hid Hne Hraw Ht Hdec).
  simpl. rewrite Hmiss.
  assert (Hlt : z < spec_candidate (ORG_FILE st ++ [autoOrg id (orgName req)])).
  { apply (spec_candidate_above _ (autoOrg id (orgName req)));
      [apply in_or_app; right; now left| |exact Hband].
    unfold autoOrg. now rewrite Hnum. }
  split; [exact Hlt|]. intros newId. rewrite generateOrgId_spec.
  destruct (MAX_ORG_ID <? spec_candidate _); [discriminate|].
  now intros [= <-].
Qed.

End Runtime.

(** ** The claims on concrete requests *)

Lemma C6_undecodable_config_is_rejected_witness :
  let req := request "updateOrgConfig" None (Some "1000000000000")
               (Some (JStr "{bad")) in
  parseAtom "{bad" = None
  /\ updateOrgConfig parseAtom decimalNumber exponentForm req acmeOnly =
       (failure 400 "Invalid JSON in config field", acmeOnly).
Proof.
  intros req. split; [reflexivity|].
  destruct (C6_undecodable_config_is_rejected parseAtom decimalNumber
              exponentForm req acmeOnly "{bad" eq_refl eq_refl) as [_ H].
  apply H; [reflexivity|discriminate].
Defined.

Lemma C8_existing_org_is_not_recreated_witness :
  let req := request "updateOrgConfig" None (Some "1000000000000")
               (Some throttle75) in
  string_of_Z 1000000000000 = "1000000000000"
  /\ ORG_FILE (snd (updateOrgConfig parseAtom decimalNumber exponentForm
                      req acmeOnly)) = [acme]
  /\ List.length
       (entriesFor exponentForm "1000000000000"
          (ORG_FILE (snd (updateOrgConfig parseAtom decimalNumber exponentForm
                            req acmeOnly))))
     = 1%nat.
Proof.
  intros req. split; [reflexivity|].
  assert (Hex : exists o, In o (ORG_FILE acmeOnly) /\
            (ORG_ID o = Some (JStr "1000000000000") \/
             (exists z, ORG_ID o = Some (JNum z) /\
                        Z.abs z <= 9007199254740992 /\
                        string_of_Z z = "1000000000000") \/
             ToString exponentForm (ORG_ID o) = "1000000000000")).
  { exists acme. split; [now left|]. right. left.
    exists 1000000000000. split; [reflexivity|]. split; [discriminate|reflexivity]. }
  destruct (C8_existing_org_is_not_recreated parseAtom decimalNumber
              exponentForm req acmeOnly "1000000000000" eq_refl Hex)
    as [H1 H2].
  split; [exact H1|]. apply H2. reflexivity.
Defined.

(** ** Where [configs[orgId]] reaches [Object.prototype]

    The handler reads and writes the configuration map with
    [configs[orgId]] and no own-property check, against its comments
    ('If org config does not exist, return a default config', 'Default
    config when org-specific config is missing'): an [orgId] that names
    a member of [Object.prototype] is served, or merged into, that
    member. *)

(** C3.  The resolver at the store that 'updateOrgConfig' leaves for the
    [orgId] [__proto__] on an empty store: a record for [__proto__] and
    no configuration.  With no entry and no stored default the claim
    gives the hardcoded default document; the handler sends
    [Object.prototype], the empty object on the wire.  For
    [constructor], in a store with such a record and no configuration,
    it sends no [details] at all. *)
Theorem C3_inherited_member_is_served :
  let update := request "updateOrgConfig" None (Some "__proto__")
                  (Some (JStr "{}")) in
  let st := snd (updateOrgConfig parseAtom decimalNumber exponentForm update
                   {| CONFIG_FILE := []; ORG_FILE := [] |}) in
  let named := {| CONFIG_FILE := [];
                  ORG_FILE := [{| ORG_ID := Some (JStr "constructor");
                                  ORG_NAME := Some (JStr "Org-constructor") |}] |} in
  st = {| CONFIG_FILE := [];
          ORG_FILE := [{| ORG_ID := Some (JStr "__proto__");
                          ORG_NAME := Some (JStr "Org-__proto__") |}] |}
  /\ lookup (CONFIG_FILE st) "__proto__" = None
  /\ getOrgConfig exponentForm
       (request "getOrgConfig" None (Some "__proto__") None) st
     = (success (JObj []) "Org config fetched successfully", st)
  /\ getOrgConfig exponentForm
       (request "getOrgConfig" None (Some "constructor") None) named
     = (success_without_details "Org config fetched successfully", named)
  /\ JObj [] <> JObj DEFAULT_CONFIG.
Proof. repeat split; try reflexivity. discriminate. Qed.

(** C4.  'updateOrgConfig' for the [orgId] [constructor] on an empty
    store, with the configuration [{}]: the map has no entry for the
    [orgId], and the claim gives a merged document with every field of
    the hardcoded default; the merge base is the inherited member, and
    the document answered and stored has no field at all.  For
    [__proto__] the answer is the same and nothing is stored. *)
Theorem C4_inherited_member_is_the_merge_base :
  let empty := {| CONFIG_FILE := []; ORG_FILE := [] |} in
  let update id := request "updateOrgConfig" None (Some id) (Some (JStr "{}")) in
  lookup (CONFIG_FILE empty) "constructor" = None
  /\ fst (updateOrgConfig parseAtom decimalNumber exponentForm
            (update "constructor") empty)
     = success (JObj []) "Org config updated successfully"
  /\ CONFIG_FILE (snd (updateOrgConfig parseAtom decimalNumber exponentForm
                         (update "constructor") empty))
     = [("constructor", JObj [])]
  /\ fst (updateOrgConfig parseAtom decimalNumber exponentForm
            (update "__proto__") empty)
     = success (JObj []) "Org config updated successfully"
  /\ CONFIG_FILE (snd (updateOrgConfig parseAtom decimalNumber exponentForm
                         (update "__proto__") empty))
     = []
  /\ lookup DEFAULT_CONFIG "throttleRequestCount" = Some (JNum 50).
Proof. repeat split; reflexivity. Qed.

(** C9.  The first 'updateOrgConfig' for the [orgId] [constructor], with
    an incoming document that does not carry [isDefault], in the store
    that holds "Acme" and no configuration: the claim gives a stored
    document with [isDefault: true], served from then on to the
    organizations without entry; the stored document has no [isDefault],
    and "Acme" is still served the hardcoded default. *)
Theorem C9_inherited_member_leaves_no_default :
  let update := request "updateOrgConfig" None (Some "constructor")
                  (Some depth3) in
  let st := snd (updateOrgConfig parseAtom decimalNumber exponentForm update
                   acmeOnly) in
  lookup (CONFIG_FILE acmeOnly) "constructor" = None
  /\ lookup (entries (Some depth3)) "isDefault" = None
  /\ fst (updateOrgConfig parseAtom decimalNumber exponentForm update acmeOnly)
     = success depth3 "Org config updated successfully"
  /\ lookup (CONFIG_FILE st) "constructor" = Some depth3
  /\ property depth3 "isDefault" = None
  /\ getOrgConfig exponentForm
       (request "getOrgConfig" None (Some "1000000000000") None) st
     = (success (JObj DEFAULT_CONFIG) "Org config fetched successfully", st).
Proof. repeat split; reflexivity. Qed.


(** ** The end-to-end scenarios of the specification *)

Example scenario_create_first_org :
  crawler parseAtom decimalNumber exponentForm
    (request "createOrg" (Some "Acme") None None)
    {| CONFIG_FILE := []; ORG_FILE := [] |}
  = (success (org_json acme) "Org created successfully", acmeOnly).
Proof. reflexivity. Qed.

Example scenario_default_served :
  crawler parseAtom decimalNumber exponentForm
    (request "getOrgConfig" None (Some "1000000000000") None) acmeOnly
  = (success (JObj DEFAULT_CONFIG) "Org config fetched successfully", acmeOnly).
Proof. reflexivity. Qed.

Example scenario_partial_update :
  let out := crawler parseAtom decimalNumber exponentForm
               (request "updateOrgConfig" None (Some "1000000000000")
                  (Some throttle75)) acmeOnly in
  ORG_FILE (snd out) = [acme]
  /\ lookup (CONFIG_FILE (snd out)) "1000000000000"
     = Some (JObj (set "throttleRequestCount" (JNum 75) DEFAULT_CONFIG)).
Proof. split; reflexivity. Qed.

Example scenario_auto_created_org :
  let out := crawler parseAtom decimalNumber exponentForm
               (request "updateOrgConfig" None (Some "2000000000000")
                  (Some depth3)) acmeOnly in
  ORG_FILE (snd out)
  = [acme; {| ORG_ID := Some (JNum 2000000000000);
              ORG_NAME := Some (JStr "Org-2000000000000") |}]
  /\ lookup (CONFIG_FILE (snd out)) "2000000000000"
     = Some (JObj (set "maxDepthAllowed" (JNum 3) DEFAULT_CONFIG)).
Proof. split; reflexivity. Qed.

Example allocate_skips_foreign_ids :
  generateOrgId decimalNumber exponentForm
    [ {| ORG_ID := Some (JStr "1000000000005"); ORG_NAME := None |};
      {| ORG_ID := Some (JNum 2000000000000); ORG_NAME := None |};
      {| ORG_ID := Some (JStr "north"); ORG_NAME := None |};
      {| ORG_ID := None; ORG_NAME := None |};
      {| ORG_ID := Some (JNum 1000000000002); ORG_NAME := None |} ]
  = Return 1000000000006.
Proof. reflexivity. Qed.

Example allocate_exhausted :
  generateOrgId decimalNumber exponentForm
    [acme; {| ORG_ID := Some (JNum 1999999999999); ORG_NAME := None |}]
  = Throw "OrgId range exhausted".
Proof. reflexivity. Qed.

Example create_is_case_sensitive :
  fst (createOrg decimalNumber exponentForm
         (request "createOrg" (Some "Acme") None None) acmeOnly)
  = failure 409 "OrgName already exists"
  /\ fst (createOrg decimalNumber exponentForm
            (request "createOrg" (Some "acme") None None) acmeOnly)
     = success (JObj [("ORG_ID", JNum 1000000000001); ("ORG_NAME", JStr "acme")])
               "Org created successfully".
Proof. split; reflexivity. Qed.

Example merge_replaces_nested_documents :
  spread2
    (Some (JObj [("limits", JObj [("depth", JNum 2); ("pages", JNum 10)]);
                 ("requestPriority", JNum 5)]))
    (Some (JObj [("limits", JObj [("depth", JNum 3)])]))
  = [("limits", JObj [("depth", JNum 3)]); ("requestPriority", JNum 5)].
Proof. reflexivity. Qed.

Example values_order_indices_first :
  map fst (own_entries [("b", JNull); ("5", JNull); ("1000000000000", JNull);
                        ("1", JNull); ("b", JBool true); ("10", JNull)])
  = ["1"; "5"; "10"; "b"; "1000000000000"].
Proof. reflexivity. Qed.

(** ** The further properties on concrete requests *)

Lemma getOrgConfig_precedence_witness :
  let st := {| CONFIG_FILE := [("7", markedDefault)]; ORG_FILE := [acme] |} in
  let req := request "getOrgConfig" None (Some "1000000000000") None in
  (exists o, In o (ORG_FILE st) /\
             ToString exponentForm (ORG_ID o) = "1000000000000")
  /\ lookup (CONFIG_FILE st) "1000000000000" = None
  /\ inherited "1000000000000" = false
  /\ getOrgConfig exponentForm req st =
       (success markedDefault "Org config fetched successfully", st).
Proof.
  intros st req.
  assert (Hex : exists o, In o (ORG_FILE st) /\
                          ToString exponentForm (ORG_ID o) = "1000000000000").
  { exists acme. split; [now left|reflexivity]. }
  split; [exact Hex|]. split; [reflexivity|]. split; [reflexivity|].
  assert (Hne : "1000000000000" <> "") by discriminate.
  destruct (getOrgConfig_precedence exponentForm req st "1000000000000"
              eq_refl Hne Hex) as [_ [H _]].
  destruct (H eq_refl eq_refl) as [Hfirst _].
  apply (Hfirst [] markedDefault []); [reflexivity|intros c []|reflexivity].
Defined.

Lemma falsy_entry_is_skipped_witness :
  let configs := [("1000000000000", JNull); ("7", markedDefault)] in
  lookup configs "1000000000000" = Some JNull
  /\ resolve configs "1000000000000" = Json markedDefault
  /\ resolve configs "1000000000000" =
     resolve (delete "1000000000000" configs) "1000000000000".
Proof.
  intros configs. split; [reflexivity|].
  destruct (falsy_entry_is_skipped configs "1000000000000" JNull
              eq_refl (or_introl eq_refl)) as [_ [H Habsent]].
  split; [exact H|]. apply Habsent. reflexivity.
Defined.

Lemma unseen_org_merges_into_default_witness :
  let req := request "updateOrgConfig" None (Some "2000000000000") (Some depth3) in
  lookup (CONFIG_FILE acmeOnly) "2000000000000" = None
  /\ inherited "2000000000000" = false
  /\ decode parseAtom depth3 = Some depth3
  /\ lookup (mergedConfig (CONFIG_FILE acmeOnly) "2000000000000" depth3)
        "throttleRequestCount" = Some (JNum 50)
  /\ lookup (CONFIG_FILE (snd (updateOrgConfig parseAtom decimalNumber
                                 exponentForm req acmeOnly)))
        "2000000000000"
     = Some (JObj (spread2 (Some (JObj DEFAULT_CONFIG)) (Some depth3))).
Proof.
  intros req. split; [reflexivity|]. split; [reflexivity|].
  split; [reflexivity|].
  assert (Hne : "2000000000000" <> "") by discriminate.
  destruct (unseen_org_merges_into_default parseAtom decimalNumber exponentForm
              req acmeOnly "2000000000000" depth3 depth3
              eq_refl Hne eq_refl eq_refl eq_refl eq_refl eq_refl)
    as [Hm [_ [Hs Hk]]].
  split; [|exact Hs].
  rewrite Hm. apply Hk; reflexivity.
Defined.

Lemma first_write_stores_a_default_witness :
  let req := request "updateOrgConfig" None (Some "1000000000000")
               (Some throttle75) in
  let configs' :=
    CONFIG_FILE (snd (updateOrgConfig parseAtom decimalNumber exponentForm
                        req acmeOnly)) in
  lookup (CONFIG_FILE acmeOnly) "1000000000000" = None
  /\ lookup (entries (Some throttle75)) "isDefault" = None
  /\ lookup (spread2 (Some (JObj DEFAULT_CONFIG)) (Some throttle75)) "isDefault"
     = Some (JBool true)
  /\ (lookup configs' "1000000000001" = None ->
      resolve configs' "1000000000001" =
      Json (JObj (spread2 (Some (JObj DEFAULT_CONFIG)) (Some throttle75)))).
Proof.
  intros req configs'. split; [reflexivity|]. split; [reflexivity|].
  assert (Hne : "1000000000000" <> "") by discriminate.
  destruct (first_write_stores_a_default parseAtom decimalNumber exponentForm
              req acmeOnly "1000000000000" throttle75 throttle75
              eq_refl Hne eq_refl eq_refl eq_refl eq_refl eq_refl eq_refl)
    as [_ [Hflag [_ [_ [_ Hserved]]]]].
  split; [exact Hflag|].
  intros Hother. apply Hserved; [exact Hother|reflexivity|].
  intros d [].
Defined.

Lemma createOrg_appends_fresh_record_witness :
  let req := request "createOrg" (Some "Beta") None None in
  spec_candidate decimalNumber exponentForm (ORG_FILE acmeOnly) = 1000000000001
  /\ createOrg decimalNumber exponentForm req acmeOnly =
     (success (JObj [("ORG_ID", JNum 1000000000001); ("ORG_NAME", JStr "Beta")])
              "Org created successfully",
      {| CONFIG_FILE := [];
         ORG_FILE := [acme; {| ORG_ID := Some (JNum 1000000000001);
                               ORG_NAME := Some (JStr "Beta") |}] |}).
Proof.
  intros req. split; [reflexivity|].
  assert (Hne : "Beta" <> "") by discriminate.
  assert (Hfree : forall o, In o (ORG_FILE acmeOnly) ->
                            ORG_NAME o <> Some (JStr "Beta")).
  { intros o [<-|[]]. discriminate. }
  assert (Hroom : spec_candidate decimalNumber exponentForm (ORG_FILE acmeOnly)
                  <= MAX_ORG_ID) by (vm_compute; discriminate).
  destruct (createOrg_appends_fresh_record decimalNumber exponentForm
              req acmeOnly "Beta" eq_refl Hne Hfree Hroom) as [H _].
  exact H.
Defined.

Lemma createOrg_exhausted_band_witness :
  let st := {| CONFIG_FILE := [];
               ORG_FILE := [{| ORG_ID := Some (JNum 1999999999999);
                               ORG_NAME := Some (JStr "Last") |}] |} in
  let req := request "createOrg" (Some "Beta") None None in
  createOrg decimalNumber exponentForm req st =
  (failure 500 "OrgId range exhausted", st).
Proof.
  intros st req.
  assert (Hne : "Beta" <> "") by discriminate.
  assert (Hfree : forall o, In o (ORG_FILE st) ->
                            ORG_NAME o <> Some (JStr "Beta")).
  { intros o [<-|[]]. discriminate. }
  apply (createOrg_exhausted_band decimalNumber exponentForm req st "Beta"
           eq_refl Hne Hfree).
  eexists. split; [now left|reflexivity].
Defined.


Lemma generateOrgId_order_independent_witness :
  let later := {| ORG_ID := Some (JNum 1000000000007); ORG_NAME := None |} in
  generateOrgId decimalNumber exponentForm [acme; later] =
  generateOrgId decimalNumber exponentForm [later; acme].
Proof.
  intros later.
  exact (generateOrgId_order_independent decimalNumber exponentForm
           [acme; later] [later; acme] (perm_swap later acme [])).
Defined.

Lemma generateOrgId_ignores_foreign_record_witness :
  let stray := {| ORG_ID := Some (JNum 2000000000000);
                  ORG_NAME := Some (JStr "Org-2000000000000") |} in
  generateOrgId decimalNumber exponentForm ([acme] ++ stray :: []) =
  generateOrgId decimalNumber exponentForm ([acme] ++ []).
Proof.
  intros stray.
  apply (generateOrgId_ignores_foreign_record decimalNumber exponentForm
           [acme] [] stray).
  right. right. right. right. exists 2000000000000.
  split; [reflexivity|]. right. reflexivity.
Defined.

Lemma getOrgConfig_after_updateOrgConfig_witness :
  let req := request "updateOrgConfig" None (Some "north") (Some depth3) in
  let req' := request "getOrgConfig" None (Some "north") None in
  decimalNumber "north" = NaN
  /\ exists doc,
       fst (updateOrgConfig parseAtom decimalNumber exponentForm req acmeOnly) =
         success doc "Org config updated successfully"
       /\ getOrgConfig exponentForm req'
            (snd (updateOrgConfig parseAtom decimalNumber exponentForm
                    req acmeOnly)) =
          (success doc "Org config fetched successfully",
           snd (updateOrgConfig parseAtom decimalNumber exponentForm
                  req acmeOnly)).
Proof.
  intros req req'. split; [reflexivity|].
  assert (Hne : "north" <> "") by discriminate.
  assert (Hproto : "north" <> "__proto__") by discriminate.
  exact (getOrgConfig_after_updateOrgConfig parseAtom decimalNumber exponentForm
           req req' acmeOnly "north" depth3 depth3
           eq_refl Hne Hproto eq_refl eq_refl eq_refl
           (or_intror (or_introl eq_refl)) eq_refl).
Defined.

Lemma updateOrgConfig_unprintable_orgId_witness :
  let req := request "updateOrgConfig" None (Some "007") (Some depth3) in
  let req' := request "getOrgConfig" None (Some "007") None in
  let st1 := snd (updateOrgConfig parseAtom decimalNumber exponentForm
                    req acmeOnly) in
  decimalNumber "007" = Fin 7 /\ ToString exponentForm (Some (JNum 7)) = "7"
  /\ getOrgConfig exponentForm req' st1 = (failure 500 "OrgId not found", st1)
  /\ List.length
       (ORG_FILE (snd (updateOrgConfig parseAtom decimalNumber exponentForm
                         req st1)))
     = 3%nat.
Proof.
  intros req req' st1. split; [reflexivity|]. split; [reflexivity|].
  assert (Hne : "007" <> "") by discriminate.
  assert (Hproto : "007" <> "__proto__") by discriminate.
  assert (Hnone : forall o, In o (ORG_FILE acmeOnly) ->
                            ToString exponentForm (ORG_ID o) <> "007").
  { intros o [<-|[]]. discriminate. }
  assert (Hz : ToString exponentForm (Some (JNum 7)) <> "007") by discriminate.
  destruct (updateOrgConfig_unprintable_orgId parseAtom decimalNumber
              exponentForm req req' acmeOnly "007" depth3 depth3 7
              eq_refl Hne Hproto eq_refl eq_refl eq_refl Hnone eq_refl Hz
              eq_refl)
    as [_ [_ [Hget Hfile]]].
  split; [exact Hget|]. unfold st1. now rewrite Hfile.
Defined.

Lemma updateOrgConfig_idempotent_witness :
  let req := request "updateOrgConfig" None (Some "1000000000000")
               (Some throttle75) in
  exists first second,
    fst (updateOrgConfig parseAtom decimalNumber exponentForm req acmeOnly) =
      success (JObj first) "Org config updated successfully"
    /\ fst (updateOrgConfig parseAtom decimalNumber exponentForm req
              (snd (updateOrgConfig parseAtom decimalNumber exponentForm
                      req acmeOnly))) =
       success (JObj second) "Org config updated successfully"
    /\ forall k, lookup second k = lookup first k.
Proof.
  intros req.
  assert (Hne : "1000000000000" <> "") by discriminate.
  exact (updateOrgConfig_idempotent parseAtom decimalNumber exponentForm
           req acmeOnly "1000000000000" throttle75 throttle75
           eq_refl Hne eq_refl eq_refl eq_refl).
Defined.

Lemma updateOrgConfig_merges_into_stored_document_witness :
  let st := {| CONFIG_FILE :=
                 [("1000000000000", JObj [("requestPriority", JNum 9)])];
               ORG_FILE := [acme] |} in
  let req := request "updateOrgConfig" None (Some "1000000000000")
               (Some throttle75) in
  fst (updateOrgConfig parseAtom decimalNumber exponentForm req st) =
    success (JObj [("requestPriority", JNum 9); ("throttleRequestCount", JNum 75)])
            "Org config updated successfully"
  /\ lookup (spread2 (Some (JObj [("requestPriority", JNum 9)])) (Some throttle75))
       "isDefault" = None.
Proof.
  intros st req.
  assert (Hne : "1000000000000" <> "") by discriminate.
  destruct (updateOrgConfig_merges_into_stored_document parseAtom decimalNumber
              exponentForm req st "1000000000000" throttle75 throttle75
              [("requestPriority", JNum 9)]
              eq_refl Hne eq_refl eq_refl eq_refl eq_refl) as [Hres [_ Hkeep]].
  split; [exact Hres|]. now rewrite Hkeep.
Defined.

Lemma updateOrgConfig_auto_creates_unchecked_witness :
  let req := request "updateOrgConfig" (Some "Acme") (Some "2000000000000")
               (Some depth3) in
  ORG_FILE (snd (updateOrgConfig parseAtom decimalNumber exponentForm
                   req acmeOnly)) =
    [acme; {| ORG_ID := Some (JNum 2000000000000);
              ORG_NAME := Some (JStr "Acme") |}]
  /\ ~ NoDup (orgNames
                (ORG_FILE (snd (updateOrgConfig parseAtom decimalNumber
                                  exponentForm req acmeOnly)))).
Proof.
  intros req.
  assert (Hne : "2000000000000" <> "") by discriminate.
  assert (Hnone : forall o, In o (ORG_FILE acmeOnly) ->
                            ToString exponentForm (ORG_ID o) <> "2000000000000").
  { intros o [<-|[]]. discriminate. }
  destruct (updateOrgConfig_auto_creates_unchecked parseAtom decimalNumber
              exponentForm req acmeOnly "2000000000000" depth3 depth3
              eq_refl Hne eq_refl eq_refl eq_refl Hnone) as [Hfile [Hname _]].
  split; [exact Hfile|].
  assert (Hn : "Acme" <> "") by discriminate.
  destruct (Hname "Acme" eq_refl Hn) as [_ Hdup].
  apply Hdup. now left.
Defined.

Lemma updateOrgConfig_with_empty_payload_witness :
  let req := request "updateOrgConfig" None (Some "1000000000000")
               (Some (JStr "null")) in
  parseAtom "null" = Some JNull
  /\ exists doc,
       fst (updateOrgConfig parseAtom decimalNumber exponentForm req acmeOnly) =
         success (JObj doc) "Org config updated successfully"
       /\ forall k, lookup doc k = lookup DEFAULT_CONFIG k.
Proof.
  intros req. split; [reflexivity|].
  assert (Hne : "1000000000000" <> "") by discriminate.
  destruct (updateOrgConfig_with_empty_payload parseAtom decimalNumber
              exponentForm req acmeOnly "1000000000000" (JStr "null") JNull
              eq_refl Hne eq_refl eq_refl eq_refl (or_introl eq_refl))
    as [doc [Hres [_ [Hdefault _]]]].
  exists doc. split; [exact Hres|]. apply Hdefault; reflexivity.
Defined.

Lemma getOrgConfig_after_createOrg_witness :
  let req := request "createOrg" (Some "Beta") None None in
  let req' := request "getOrgConfig" None (Some "1000000000001") None in
  string_of_Z (spec_candidate decimalNumber exponentForm (ORG_FILE acmeOnly))
  = "1000000000001"
  /\ getOrgConfig exponentForm req'
       (snd (createOrg decimalNumber exponentForm req acmeOnly)) =
     (success (JObj DEFAULT_CONFIG) "Org config fetched successfully",
      snd (createOrg decimalNumber exponentForm req acmeOnly)).
Proof.
  intros req req'. split; [reflexivity|].
  assert (Hne : "Beta" <> "") by discriminate.
  assert (Hfree : forall o, In o (ORG_FILE acmeOnly) ->
                            ORG_NAME o <> Some (JStr "Beta")).
  { intros o [<-|[]]. discriminate. }
  assert (Hroom : spec_candidate decimalNumber exponentForm (ORG_FILE acmeOnly)
                  <= MAX_ORG_ID) by (vm_compute; discriminate).
  exact (getOrgConfig_after_createOrg decimalNumber exponentForm
           req req' acmeOnly "Beta" eq_refl Hne Hfree Hroom eq_refl).
Defined.

Lemma allocator_skips_auto_created_id_witness :
  let req := request "updateOrgConfig" None (Some "1500000000000")
               (Some depth3) in
  decimalNumber "1500000000000" = Fin 1500000000000
  /\ generateOrgId decimalNumber exponentForm
       (ORG_FILE (snd (updateOrgConfig parseAtom decimalNumber exponentForm
                         req acmeOnly)))
     = Return 1500000000001
  /\ 1500000000000 <
     spec_candidate decimalNumber exponentForm
       (ORG_FILE (snd (updateOrgConfig parseAtom decimalNumber exponentForm
                         req acmeOnly))).
Proof.
  intros req. split; [reflexivity|]. split; [reflexivity|].
  assert (Hne : "1500000000000" <> "") by discriminate.
  assert (Hnone : forall o, In o (ORG_FILE acmeOnly) ->
                            ToString exponentForm (ORG_ID o) <> "1500000000000").
  { intros o [<-|[]]. discriminate. }
  assert (Hband : MIN_ORG_ID <= 1500000000000 <= MAX_ORG_ID).
  { split; discriminate. }
  destruct (allocator_skips_auto_created_id parseAtom decimalNumber exponentForm
              req acmeOnly "1500000000000" depth3 depth3 1500000000000
              eq_refl Hne eq_refl eq_refl eq_refl Hnone eq_refl Hband)
    as [H _].
  exact H.
Defined.
